(** * HeroesOfAnarchyPy: the game client of [main.py]

    A shallow embedding of the WebSocket worker ([WebSocketClientThread]) and
    of the game window's state handling ([GameWindow]): key presses, the
    position-send timer, and the handler of inbound messages; and of the
    login dialog ([AuthDialog]) with the main block that starts the game.

    Python values are modelled as follows.
    - [float] is IEEE 754 binary64, here [spec_float] with the operations of
      the standard library's specification of floating-point arithmetic
      ([prec = 53], [emax = 1024]); comparisons involving NaN are false.
    - a decoded JSON document is a [json] tree; a dict is the list of its
      items in insertion order.
    - an exception is a value of [pyexc]; a computation that may raise
      returns [res A] next to the state it leaves behind.
    - what the window does to the outside (frames handed to the socket,
      timer control, dialogs, diagnostics printed) is appended to a trace. *)

From Stdlib Require Import ZArith List String Ascii Bool Lia Relations.
From Stdlib Require Import Floats.SpecFloat.
Import ListNotations.
Set Warnings "-register-all".
Local Open Scope string_scope.
Local Open Scope list_scope.
Local Open Scope Z_scope.

(** ** Python floats *)

Module PyFloat.

Definition prec : Z := 53.
Definition emax : Z := 1024.

Definition float := spec_float.

(** The float nearest to an integer (ties to even); an infinity when the
    integer is out of range. *)
Definition of_Z (z : Z) : float := binary_normalize prec emax z 0 false.

Definition add : float -> float -> float := SFadd prec emax.
Definition sub : float -> float -> float := SFsub prec emax.
Definition mul : float -> float -> float := SFmul prec emax.
Definition div : float -> float -> float := SFdiv prec emax.

(** [a < b], [a <= b], [a == b] and [a != b] on floats. *)
Definition ltb (a b : float) : bool := SFltb a b.
Definition leb (a b : float) : bool := SFleb a b.
Definition eqb (a b : float) : bool := SFeqb a b.
Definition neb (a b : float) : bool := negb (SFeqb a b).

Definition is_nan (a : float) : bool :=
  match a with S754_nan => true | _ => false end.

(** The builtins [min(a, b)] and [max(a, b)]: the first argument is kept
    unless the second is strictly smaller (resp. greater). *)
Definition py_min (a b : float) : float := if ltb b a then b else a.
Definition py_max (a b : float) : float := if ltb a b then b else a.

(** The exact value of a float against an integer, as [==] between a
    float and an int compares them. *)
Definition eqb_Z (a : float) (n : Z) : bool :=
  match a with
  | S754_zero _ => n =? 0
  | S754_finite s m e =>
      if 0 <=? e then n =? cond_Zopp s (Z.shiftl (Zpos m) e)
      else Z.shiftl n (- e) =? cond_Zopp s (Zpos m)
  | _ => false
  end.

(** Truncation towards zero, the integer part [int(a)] keeps. *)
Definition trunc (s : bool) (m : positive) (e : Z) : Z :=
  cond_Zopp s (Z.shiftl (Zpos m) e).

End PyFloat.

Definition float : Set := PyFloat.float.

(** ** Decoded JSON and the Python operations applied to it *)

Inductive json :=
| JNull
| JBool (b : bool)
| JInt (z : Z)
| JFloat (f : float)
| JStr (s : string)
| JArr (l : list json)
| JObj (d : list (string * json)).

Inductive pyexc :=
| JSONDecodeError
| AttributeError
| TypeError
| ValueError
| OverflowError.

Inductive res (A : Type) :=
| Val (a : A)
| Exn (e : pyexc).
Arguments Val {A} a.
Arguments Exn {A} e.

(** Truth value of an object in [x and y]. *)
Definition truthy (v : json) : bool :=
  match v with
  | JNull => false
  | JBool b => b
  | JInt z => negb (z =? 0)
  | JFloat f => PyFloat.neb f (S754_zero false)
  | JStr s => negb (String.eqb s "")
  | JArr l => match l with [] => false | _ => true end
  | JObj d => match d with [] => false | _ => true end
  end.

Fixpoint lookup (k : string) (d : list (string * json)) : option json :=
  match d with
  | [] => None
  | (k', v) :: d' => if String.eqb k k' then Some v else lookup k d'
  end.

(** [obj.get(key, default)]; only a dict has the method. *)
Definition py_get (obj : json) (key : string) (default : json) : res json :=
  match obj with
  | JObj d => Val (match lookup key d with Some v => v | None => default end)
  | _ => Exn AttributeError
  end.

(** [v == s] for a string literal [s]. *)
Definition eq_str (v : json) (s : string) : bool :=
  match v with JStr t => String.eqb t s | _ => false end.

(** [v == n] for an int [n]: numbers compare by value, [True] is 1. *)
Definition eq_int (v : json) (n : Z) : bool :=
  match v with
  | JInt z => z =? n
  | JBool b => (if b then 1 else 0) =? n
  | JFloat f => PyFloat.eqb_Z f n
  | _ => false
  end.

Definition is_none (v : json) : bool :=
  match v with JNull => true | _ => false end.

(** [float(n)] of an int. *)
Definition float_of_int (n : Z) : res float :=
  match PyFloat.of_Z n with
  | S754_infinity _ => Exn OverflowError
  | f => Val f
  end.

(** [int(f)] of a float. *)
Definition py_int (f : float) : res Z :=
  match f with
  | S754_zero _ => Val 0
  | S754_finite s m e => Val (PyFloat.trunc s m e)
  | S754_infinity _ => Exn OverflowError
  | S754_nan => Exn ValueError
  end.

(** Keys of [other_players]. Lists and dicts are unhashable; among the
    others two keys are one when they are equal, and also when both are the
    decoder's NaN object (a dict looks at identity before [==]). *)
Definition hashable (v : json) : bool :=
  match v with JArr _ | JObj _ => false | _ => true end.

Definition key_eq (a b : json) : bool :=
  match a, b with
  | JNull, JNull => true
  | JStr s, JStr t => String.eqb s t
  | JFloat f, JFloat g => PyFloat.eqb f g || (PyFloat.is_nan f && PyFloat.is_nan g)
  | JFloat f, JInt n | JInt n, JFloat f => PyFloat.eqb_Z f n
  | JFloat f, JBool b | JBool b, JFloat f => PyFloat.eqb_Z f (if b then 1 else 0)
  | JInt n, JInt m => n =? m
  | JInt n, JBool b | JBool b, JInt n => n =? (if b then 1 else 0)
  | JBool b, JBool c => Bool.eqb b c
  | _, _ => false
  end.

(** ** What the program needs from its libraries and from the network *)

(** The socket as [send_message] finds it. *)
Inductive link :=
| NotConnected            (* no socket, or [sock.connected] is false *)
| Connected               (* [ws.send] succeeds *)
| ConnectionClosed        (* [ws.send] raises WebSocketConnectionClosedException *)
| SendError.              (* [ws.send] raises something else *)

Record Runtime := {
  (** [json.loads]; [None] stands for JSONDecodeError. *)
  json_loads : string -> option json;
  (** [float(s)] of a string; [None] stands for ValueError. *)
  float_of_str : string -> option float;
  (** The socket at the n-th call of [send_message], counted from 0. *)
  link_at : nat -> link
}.

(** ** Constants of the client *)

Definition TILE_SIZE : Z := 30.
Definition MAP_WIDTH_TILES : Z := 40.
Definition MAP_HEIGHT_TILES : Z := 20.

(** [Qt.Key_W], [Qt.Key_S], [Qt.Key_A], [Qt.Key_D]. *)
Definition Key_W : Z := 87.
Definition Key_S : Z := 83.
Definition Key_A : Z := 65.
Definition Key_D : Z := 68.

(** ** The game window *)

(** A player on the scene: the rectangle of its ellipse and the position of
    its text, both in pixels. *)
Record item := {
  rect_x : float;
  rect_y : float;
  text_x : float;
  text_y : float
}.

Inductive status := NoStatus | StatusConnected | StatusDisconnected.

Record GameWindow := {
  user_id : Z;
  player_x : float;
  player_y : float;
  player_z : float;
  (** dict from the user id to its item group, in insertion order *)
  other_players : list (json * item);
  (** [None] until the local player is drawn for the first time *)
  my_player_item : option item;
  (** the two integers shown by [position_label] *)
  position_label : Z * Z;
  (** whether [position_send_timer] is running *)
  position_send_timer : bool;
  _position_timer_started : bool;
  last_sent_x : float;
  last_sent_y : float;
  last_sent_z : float;
  status_bar : status
}.

(** The outbound message of [send_current_position], before [json.dumps]. *)
Inductive frame :=
| PlayerPosition (uid : Z) (x y z : float).

(** The diagnostics the modelled functions print. *)
Inductive diag :=
| MissingUserId
| ReceivedDisconnected
| IgnoringSelfDisconnect
| RemovingPlayer
| RemovedPlayer
| PlayerNotFound
| ReceivedInitialPlayers
| SetInitialPosition
| TimerStarted
| UnknownMessage
| JsonDecodeFailed
| HandlingFailed (e : pyexc)
| MessageSent
| ClosedCannotSend
| ErrorSending
| NotConnectedCannotSend
| ConnectionOpened
| ConnectionClosedSeen
| ConnectionError.

Inductive dialog := JsonErrorBox | MessageErrorBox.

Inductive effect :=
| Submit (f : frame)        (* [send_message] is called with the frame *)
| Sent (f : frame)          (* [ws.send] returned: the frame is on the wire *)
| TimerStart (ms : Z)       (* [position_send_timer.start(ms)] *)
| TimerStop                 (* [position_send_timer.stop()] *)
| Printed (d : diag)        (* [print] *)
| Critical (d : dialog).    (* [QMessageBox.critical], a modal dialog *)

Record St := {
  win : GameWindow;
  sends : nat;               (* calls of [send_message] so far *)
  trace : list effect
}.

Definition M (A : Type) : Type := St -> res A * St.

Definition ret {A} (a : A) : M A := fun s => (Val a, s).

Definition bind {A B} (c : M A) (k : A -> M B) : M B :=
  fun s => match c s with
           | (Val a, s') => k a s'
           | (Exn e, s') => (Exn e, s')
           end.

Definition lift {A} (r : res A) : M A := fun s => (r, s).

Definition get : M GameWindow := fun s => (Val (win s), s).

Definition modify (f : GameWindow -> GameWindow) : M unit :=
  fun s => (Val tt, {| win := f (win s); sends := sends s; trace := trace s |}).

Definition emit (e : effect) : M unit :=
  fun s => (Val tt, {| win := win s; sends := sends s; trace := trace s ++ [e] |}).

Notation "x <- c1 ;; c2" := (bind c1 (fun x => c2))
  (at level 61, c1 at next level, right associativity).
Notation "c1 ;; c2" := (bind c1 (fun _ => c2))
  (at level 61, right associativity).

Fixpoint for_each {A} (l : list A) (body : A -> M unit) : M unit :=
  match l with
  | [] => ret tt
  | a :: l' => body a ;; for_each l' body
  end.

(** Assignments to the attributes of the window. *)
Definition set_position (x y z : float) (w : GameWindow) : GameWindow :=
  {| user_id := user_id w; player_x := x; player_y := y; player_z := z;
     other_players := other_players w; my_player_item := my_player_item w;
     position_label := position_label w;
     position_send_timer := position_send_timer w;
     _position_timer_started := _position_timer_started w;
     last_sent_x := last_sent_x w; last_sent_y := last_sent_y w;
     last_sent_z := last_sent_z w; status_bar := status_bar w |}.

Definition set_last_sent (x y z : float) (w : GameWindow) : GameWindow :=
  {| user_id := user_id w; player_x := player_x w; player_y := player_y w;
     player_z := player_z w;
     other_players := other_players w; my_player_item := my_player_item w;
     position_label := position_label w;
     position_send_timer := position_send_timer w;
     _position_timer_started := _position_timer_started w;
     last_sent_x := x; last_sent_y := y; last_sent_z := z;
     status_bar := status_bar w |}.

Definition set_other_players (d : list (json * item)) (w : GameWindow) : GameWindow :=
  {| user_id := user_id w; player_x := player_x w; player_y := player_y w;
     player_z := player_z w;
     other_players := d; my_player_item := my_player_item w;
     position_label := position_label w;
     position_send_timer := position_send_timer w;
     _position_timer_started := _position_timer_started w;
     last_sent_x := last_sent_x w; last_sent_y := last_sent_y w;
     last_sent_z := last_sent_z w; status_bar := status_bar w |}.

Definition set_my_player_item (i : item) (w : GameWindow) : GameWindow :=
  {| user_id := user_id w; player_x := player_x w; player_y := player_y w;
     player_z := player_z w;
     other_players := other_players w; my_player_item := Some i;
     position_label := position_label w;
     position_send_timer := position_send_timer w;
     _position_timer_started := _position_timer_started w;
     last_sent_x := last_sent_x w; last_sent_y := last_sent_y w;
     last_sent_z := last_sent_z w; status_bar := status_bar w |}.

Definition set_position_label (l : Z * Z) (w : GameWindow) : GameWindow :=
  {| user_id := user_id w; player_x := player_x w; player_y := player_y w;
     player_z := player_z w;
     other_players := other_players w; my_player_item := my_player_item w;
     position_label := l;
     position_send_timer := position_send_timer w;
     _position_timer_started := _position_timer_started w;
     last_sent_x := last_sent_x w; last_sent_y := last_sent_y w;
     last_sent_z := last_sent_z w; status_bar := status_bar w |}.

Definition set_timer (running started : bool) (w : GameWindow) : GameWindow :=
  {| user_id := user_id w; player_x := player_x w; player_y := player_y w;
     player_z := player_z w;
     other_players := other_players w; my_player_item := my_player_item w;
     position_label := position_label w;
     position_send_timer := running;
     _position_timer_started := started;
     last_sent_x := last_sent_x w; last_sent_y := last_sent_y w;
     last_sent_z := last_sent_z w; status_bar := status_bar w |}.

Definition set_status_bar (m : status) (w : GameWindow) : GameWindow :=
  {| user_id := user_id w; player_x := player_x w; player_y := player_y w;
     player_z := player_z w;
     other_players := other_players w; my_player_item := my_player_item w;
     position_label := position_label w;
     position_send_timer := position_send_timer w;
     _position_timer_started := _position_timer_started w;
     last_sent_x := last_sent_x w; last_sent_y := last_sent_y w;
     last_sent_z := last_sent_z w; status_bar := m |}.

(** [GameWindow.__init__] *)
Definition init_window (uid : Z) : GameWindow :=
  {| user_id := uid;
     player_x := S754_zero false;
     player_y := S754_zero false;
     player_z := S754_zero false;
     other_players := [];
     my_player_item := None;
     position_label := (0, 0);
     position_send_timer := false;
     _position_timer_started := false;
     last_sent_x := PyFloat.of_Z (-1);
     last_sent_y := PyFloat.of_Z (-1);
     last_sent_z := PyFloat.of_Z (-1);
     status_bar := NoStatus |}.

Definition init_state (uid : Z) : St :=
  {| win := init_window uid; sends := 0%nat; trace := [] |}.

(** Operations on the dict [other_players]. *)
Definition contains (k : json) (d : list (json * item)) : res bool :=
  if hashable k then Val (existsb (fun p => key_eq (fst p) k) d)
  else Exn TypeError.

Fixpoint set_item (k : json) (i : item) (d : list (json * item)) : list (json * item) :=
  match d with
  | [] => []
  | (k', i') :: d' =>
      if key_eq k' k then (k', i) :: d' else (k', i') :: set_item k i d'
  end.

Fixpoint pop (k : json) (d : list (json * item)) : list (json * item) :=
  match d with
  | [] => []
  | (k', i') :: d' => if key_eq k' k then d' else (k', i') :: pop k d'
  end.

(** What [for player_data in payload] runs over. *)
Definition py_iter (v : json) : res (list json) :=
  match v with
  | JArr l => Val l
  | JObj d => Val (map (fun p => JStr (fst p)) d)
  | JStr s => Val (map (fun c => JStr (String c "")) (list_ascii_of_string s))
  | _ => Exn TypeError
  end.

Section Window.

Variable rt : Runtime.

(** [float(v)] *)
Definition py_float (v : json) : res float :=
  match v with
  | JFloat f => Val f
  | JInt n => float_of_int n
  | JBool b => Val (PyFloat.of_Z (if b then 1 else 0))
  | JStr s => match float_of_str rt s with
              | Some f => Val f
              | None => Exn ValueError
              end
  | _ => Exn TypeError
  end.

Definition handle_websocket_open : M unit :=
  emit (Printed ConnectionOpened) ;;
  modify (set_status_bar StatusConnected).

Definition handle_websocket_close : M unit :=
  emit (Printed ConnectionClosedSeen) ;;
  w <- get ;;
  (if _position_timer_started w then
     emit TimerStop ;;
     modify (set_timer false false)
   else ret tt) ;;
  modify (set_status_bar StatusDisconnected).

Definition handle_websocket_error (error_message : string) : M unit :=
  emit (Printed ConnectionError) ;;
  handle_websocket_close.

(** [WebSocketClientThread.send_message], as the window calls it. The
    [closed] signal belongs to an object of the window's own thread, so
    emitting it here runs the slot [handle_websocket_close] at once. *)
Definition send_message (message : frame) : M unit :=
  emit (Submit message) ;;
  l <- (fun s => (Val (link_at rt (sends s)),
                  {| win := win s; sends := S (sends s); trace := trace s |})) ;;
  match l with
  | Connected => emit (Sent message) ;; emit (Printed MessageSent)
  | ConnectionClosed => emit (Printed ClosedCannotSend) ;; handle_websocket_close
  | SendError => emit (Printed ErrorSending)
  | NotConnected => emit (Printed NotConnectedCannotSend)
  end.

Definition send_current_position : M unit :=
  w <- get ;;
  if PyFloat.neb (last_sent_x w) (player_x w)
     || PyFloat.neb (last_sent_y w) (player_y w)
     || PyFloat.neb (last_sent_z w) (player_z w)
  then
    send_message (PlayerPosition (user_id w) (player_x w) (player_y w) (player_z w)) ;;
    modify (fun w => set_last_sent (player_x w) (player_y w) (player_z w) w)
  else ret tt.

(** The text of [position_label]: [int(player_x)] and [int(player_y)]. *)
Definition show_position : M unit :=
  w <- get ;;
  lx <- lift (py_int (player_x w)) ;;
  ly <- lift (py_int (player_y w)) ;;
  modify (set_position_label (lx, ly)).

Definition update_player_visual (uid : json) (x y z : float) : M unit :=
  let tile := PyFloat.of_Z TILE_SIZE in
  let quarter := PyFloat.div tile (PyFloat.of_Z 4) in
  let i := {| rect_x := PyFloat.mul x tile;
              rect_y := PyFloat.mul y tile;
              text_x := PyFloat.add (PyFloat.mul x tile) quarter;
              text_y := PyFloat.add (PyFloat.mul y tile) quarter |} in
  w <- get ;;
  if eq_int uid (user_id w) then
    modify (set_my_player_item i) ;;
    show_position
  else
    known <- lift (contains uid (other_players w)) ;;
    if known then
      modify (set_other_players (set_item uid i (other_players w)))
    else
      modify (set_other_players (other_players w ++ [(uid, i)])).

Definition remove_player_visual (uid : json) : M unit :=
  w <- get ;;
  if eq_int uid (user_id w) then
    emit (Printed IgnoringSelfDisconnect)
  else
    known <- lift (contains uid (other_players w)) ;;
    if known then
      emit (Printed RemovingPlayer) ;;
      modify (set_other_players (pop uid (other_players w))) ;;
      emit (Printed RemovedPlayer)
    else
      emit (Printed PlayerNotFound).

(** The first half of [keyPressEvent]: where the key asks to go, before
    the bounds of the map are applied, and whether it is a move at all. *)
Definition requested (key : Z) (w : GameWindow) : float * float * bool :=
  let step := PyFloat.of_Z 1 in
  if key =? Key_W then (player_x w, PyFloat.sub (player_y w) step, true)
  else if key =? Key_S then (player_x w, PyFloat.add (player_y w) step, true)
  else if key =? Key_A then (PyFloat.sub (player_x w) step, player_y w, true)
  else if key =? Key_D then (PyFloat.add (player_x w) step, player_y w, true)
  else (player_x w, player_y w, false).

Definition keyPressEvent (key : Z) : M unit :=
  w <- get ;;
  let '(new_x, new_y, moved) := requested key w in
  let new_x := PyFloat.py_max (S754_zero false)
                 (PyFloat.py_min new_x
                    (PyFloat.sub (PyFloat.of_Z MAP_WIDTH_TILES) (PyFloat.of_Z 1))) in
  let new_y := PyFloat.py_max (S754_zero false)
                 (PyFloat.py_min new_y
                    (PyFloat.sub (PyFloat.of_Z MAP_HEIGHT_TILES) (PyFloat.of_Z 1))) in
  if moved then
    modify (set_position new_x new_y (player_z w)) ;;
    update_player_visual (JInt (user_id w)) new_x new_y (player_z w) ;;
    show_position ;;
    send_current_position
  else ret tt.

(** One turn of the loop over the payload of InitialPlayers. *)
Definition initial_player (player_data : json) : M unit :=
  uid <- lift (py_get player_data "user_id" JNull) ;;
  if is_none uid then emit (Printed MissingUserId)
  else
    jx <- lift (py_get player_data "x" JNull) ;;
    x <- lift (py_float jx) ;;
    jy <- lift (py_get player_data "y" JNull) ;;
    y <- lift (py_float jy) ;;
    jz <- lift (py_get player_data "z" (JFloat (S754_zero false))) ;;
    z <- lift (py_float jz) ;;
    w <- get ;;
    (if eq_int uid (user_id w) then
       modify (set_position x y z) ;;
       emit (Printed SetInitialPosition) ;;
       if negb (_position_timer_started w) then
         emit (TimerStart 100) ;;
         modify (set_timer true true) ;;
         emit (Printed TimerStarted) ;;
         send_current_position
       else ret tt
     else ret tt) ;;
    update_player_visual uid x y z.

(** The body of the [try] in [websocket_on_message]. *)
Definition on_message_body (message : string) : M unit :=
  data <- lift (match json_loads rt message with
                | Some v => Val v
                | None => Exn JSONDecodeError
                end) ;;
  msg_type <- lift (py_get data "type" JNull) ;;
  payload <- lift (py_get data "payload" JNull) ;;
  if eq_str msg_type "PlayerPosition" && truthy payload then
    uid <- lift (py_get payload "user_id" JNull) ;;
    if is_none uid then emit (Printed MissingUserId)
    else
      jx <- lift (py_get payload "x" JNull) ;;
      x <- lift (py_float jx) ;;
      jy <- lift (py_get payload "y" JNull) ;;
      y <- lift (py_float jy) ;;
      jz <- lift (py_get payload "z" (JFloat (S754_zero false))) ;;
      z <- lift (py_float jz) ;;
      w <- get ;;
      (if eq_int uid (user_id w) then modify (set_position x y z) else ret tt) ;;
      update_player_visual uid x y z
  else if eq_str msg_type "PlayerDisconnected" && truthy payload then
    uid <- lift (py_get payload "user_id" JNull) ;;
    if is_none uid then emit (Printed MissingUserId)
    else
      emit (Printed ReceivedDisconnected) ;;
      remove_player_visual uid
  else if eq_str msg_type "InitialPlayers" then
    emit (Printed ReceivedInitialPlayers) ;;
    if truthy payload then
      entries <- lift (py_iter payload) ;;
      for_each entries initial_player
    else ret tt
  else emit (Printed UnknownMessage).

(** [websocket_on_message]: the body, and the two [except] clauses. *)
Definition websocket_on_message (message : string) : M unit :=
  fun s =>
    match on_message_body message s with
    | (Val tt, s') => (Val tt, s')
    | (Exn JSONDecodeError, s') =>
        (emit (Printed JsonDecodeFailed) ;; emit (Critical JsonErrorBox)) s'
    | (Exn e, s') =>
        (emit (Printed (HandlingFailed e)) ;; emit (Critical MessageErrorBox)) s'
    end.

(** What the window's thread is given to run, one at a time: key presses,
    timeouts of [position_send_timer], and the worker's signals. *)
Inductive ui_event :=
| KeyPress (key : Z)
| Timeout
| MessageReceived (message : string)
| ErrorOccurred (error_message : string)
| Closed
| Opened.

Definition dispatch (e : ui_event) : M unit :=
  match e with
  | KeyPress key => keyPressEvent key
  | Timeout =>
      w <- get ;;
      if position_send_timer w then send_current_position else ret tt
  | MessageReceived message => websocket_on_message message
  | ErrorOccurred error_message => handle_websocket_error error_message
  | Closed => handle_websocket_close
  | Opened => handle_websocket_open
  end.

Definition run_events (es : list ui_event) : M unit := for_each es dispatch.

End Window.

(** ** The worker thread of the socket *)

Module Transport.

Inductive signal :=
| message_received (message : string)
| error_occurred (error : string)
| closed
| opened.

(** [ws] tells whether [self.ws] holds an application object. *)
Record WebSocketClientThread := {
  _running : bool;
  ws : bool
}.

(** What the thread does, in order. *)
Inductive action :=
| Attempt                  (* the [try] block is entered *)
| Emit (s : signal)
| Sleep (seconds : Z)
| CloseSocket.             (* [self.ws.close()] *)

(** What happens while [run_forever] is in progress: the library calls one
    of the four callbacks, or the window's thread calls [stop]. *)
Inductive happening :=
| OnOpen
| OnMessage (message : string)
| OnError (error : string)
| OnClose
| StopCalled.

(** One pass through the [try] block: either creating the application
    object raises, or [run_forever] runs and then returns or raises. *)
Inductive attempt :=
| CreationRaises
| RunForever (during : list happening) (raises : bool).

Definition on_message (message : string) (t : WebSocketClientThread)
  : WebSocketClientThread * list action :=
  (t, [Emit (message_received message)]).

Definition on_error (error : string) (t : WebSocketClientThread)
  : WebSocketClientThread * list action :=
  (t, [Emit (error_occurred error); Emit closed]).

Definition on_close (t : WebSocketClientThread)
  : WebSocketClientThread * list action :=
  ({| _running := false; ws := ws t |}, [Emit closed]).

Definition on_open (t : WebSocketClientThread)
  : WebSocketClientThread * list action :=
  (t, [Emit opened]).

Definition stop (t : WebSocketClientThread)
  : WebSocketClientThread * list action :=
  ({| _running := false; ws := false |}, if ws t then [CloseSocket] else []).

Definition happen (h : happening) (t : WebSocketClientThread)
  : WebSocketClientThread * list action :=
  match h with
  | OnOpen => on_open t
  | OnMessage m => on_message m t
  | OnError e => on_error e t
  | OnClose => on_close t
  | StopCalled => stop t
  end.

Fixpoint run_forever (hs : list happening) (t : WebSocketClientThread)
  : WebSocketClientThread * list action :=
  match hs with
  | [] => (t, [])
  | h :: hs' =>
      let '(t1, a1) := happen h t in
      let '(t2, a2) := run_forever hs' t1 in
      (t2, a1 ++ a2)
  end.

(** The [while self._running] loop, given what each pass will meet. The
    boolean tells whether the loop has ended; it has not when the passes
    given are used up while [_running] is still true. *)
Fixpoint run_loop (atts : list attempt) (t : WebSocketClientThread)
  : WebSocketClientThread * list action * bool :=
  if _running t then
    match atts with
    | [] => (t, [], false)
    | CreationRaises :: atts' =>
        let '(t', acts, ended) := run_loop atts' t in
        (t', Attempt :: Sleep 5 :: acts, ended)
    | RunForever during raises :: atts' =>
        let '(t1, a1) := run_forever during {| _running := _running t; ws := true |} in
        let pause :=
          if raises then [Sleep 5]                 (* the [except] clause *)
          else if _running t1 then [Sleep 5]       (* [if self._running] *)
          else [] in
        let '(t', acts, ended) := run_loop atts' t1 in
        (t', Attempt :: a1 ++ pause ++ acts, ended)
    end
  else (t, [], true).

Definition run (atts : list attempt) (t : WebSocketClientThread)
  : WebSocketClientThread * list action * bool :=
  run_loop atts {| _running := true; ws := ws t |}.

(** [WebSocketClientThread.__init__] *)
Definition init : WebSocketClientThread := {| _running := true; ws := false |}.

Definition is_stop (h : happening) : bool :=
  match h with StopCalled => true | _ => false end.

Definition is_close (h : happening) : bool :=
  match h with OnClose => true | _ => false end.

Definition meets (p : happening -> bool) (a : attempt) : bool :=
  match a with
  | CreationRaises => false
  | RunForever during _ => existsb p during
  end.

Definition is_attempt (a : action) : bool :=
  match a with Attempt => true | _ => false end.

Definition tally (p : action -> bool) (l : list action) : nat :=
  List.length (filter p l).

(** The signals one pass emits. *)
Definition emitted (a : attempt) : list action :=
  match a with
  | CreationRaises => []
  | RunForever during _ => snd (run_forever during init)
  end.

(** A pass during which neither [stop] is called nor [on_close] runs. *)
Definition quiet (a : attempt) : bool :=
  negb (meets is_stop a) && negb (meets is_close a).


(** Three passes that all fail without [on_close]: the application object
    cannot be created, [run_forever] raises after an error, [run_forever]
    returns after a message. *)
Definition three_failures : list attempt :=
  [CreationRaises;
   RunForever [OnOpen; OnError "reset"] true;
   RunForever [OnOpen; OnMessage "hello"] false].

End Transport.

(** ** A decoder for concrete messages

    The properties below hold for every [Runtime]. To run the model on the
    text of a message, [Decoder] gives one: a reader of the part of JSON
    made of objects, arrays, strings without escapes, integers, [true],
    [false], [null] and [NaN]; any other text is a decoding error. *)

Module Decoder.

Definition quote : ascii := "034"%char.

Definition is_space (c : ascii) : bool :=
  match nat_of_ascii c with
  | 32%nat | 9%nat | 10%nat | 13%nat => true
  | _ => false
  end.

Definition digit (c : ascii) : option Z :=
  let n := Z.of_nat (nat_of_ascii c) in
  if (48 <=? n) && (n <=? 57) then Some (n - 48) else None.

Fixpoint skip_ws (s : list ascii) : list ascii :=
  match s with
  | c :: s' => if is_space c then skip_ws s' else s
  | [] => []
  end.

(** The rest of [s] after the prefix [p]. *)
Fixpoint strip (p s : list ascii) : option (list ascii) :=
  match p, s with
  | [], _ => Some s
  | a :: p', b :: s' => if Ascii.eqb a b then strip p' s' else None
  | _ :: _, [] => None
  end.

(** The characters up to the closing quote. *)
Fixpoint read_string (s : list ascii) : option (string * list ascii) :=
  match s with
  | [] => None
  | c :: s' =>
      if Ascii.eqb c quote then Some (EmptyString, s')
      else if Ascii.eqb c "\"%char then None
      else match read_string s' with
           | Some (t, r) => Some (String c t, r)
           | None => None
           end
  end.

Fixpoint read_digits (acc : Z) (s : list ascii) : Z * list ascii :=
  match s with
  | c :: s' =>
      match digit c with
      | Some d => read_digits (10 * acc + d) s'
      | None => (acc, s)
      end
  | [] => (acc, [])
  end.

(** An integer without a leading zero, fraction or exponent. *)
Definition read_int (s : list ascii) : option (Z * list ascii) :=
  match s with
  | c :: s' =>
      match digit c with
      | Some d =>
          let '(n, r) := read_digits d s' in
          let plain :=
            match r with
            | x :: _ => negb (Ascii.eqb x "."%char || Ascii.eqb x "e"%char
                              || Ascii.eqb x "E"%char)
            | [] => true
            end in
          let leading_zero :=
            match s' with
            | x :: _ => (d =? 0) && (match digit x with Some _ => true | None => false end)
            | [] => false
            end in
          if plain && negb leading_zero then Some (n, r) else None
      | None => None
      end
  | [] => None
  end.

(** A dict keeps the first position of a key and its last value. *)
Fixpoint dict_set (k : string) (v : json) (d : list (string * json))
  : list (string * json) :=
  match d with
  | [] => [(k, v)]
  | (k', v') :: d' =>
      if String.eqb k k' then (k', v) :: d' else (k', v') :: dict_set k v d'
  end.

Fixpoint read_value (fuel : nat) (s : list ascii) {struct fuel}
  : option (json * list ascii) :=
  match fuel with
  | O => None
  | S n =>
      match skip_ws s with
      | [] => None
      | c :: r =>
          if Ascii.eqb c quote then
            match read_string r with
            | Some (t, r') => Some (JStr t, r')
            | None => None
            end
          else if Ascii.eqb c "["%char then
            match skip_ws r with
            | x :: r' =>
                if Ascii.eqb x "]"%char then Some (JArr [], r')
                else match read_elements n r with
                     | Some (l, r'') => Some (JArr l, r'')
                     | None => None
                     end
            | [] => None
            end
          else if Ascii.eqb c "{"%char then
            match skip_ws r with
            | x :: r' =>
                if Ascii.eqb x "}"%char then Some (JObj [], r')
                else match read_members n [] r with
                     | Some (d, r'') => Some (JObj d, r'')
                     | None => None
                     end
            | [] => None
            end
          else if Ascii.eqb c "-"%char then
            match read_int r with
            | Some (z, r') => Some (JInt (- z), r')
            | None => None
            end
          else
            match strip (list_ascii_of_string "null") (c :: r),
                  strip (list_ascii_of_string "true") (c :: r),
                  strip (list_ascii_of_string "false") (c :: r),
                  strip (list_ascii_of_string "NaN") (c :: r) with
            | Some r', _, _, _ => Some (JNull, r')
            | _, Some r', _, _ => Some (JBool true, r')
            | _, _, Some r', _ => Some (JBool false, r')
            | _, _, _, Some r' => Some (JFloat S754_nan, r')
            | _, _, _, _ =>
                match read_int (c :: r) with
                | Some (z, r') => Some (JInt z, r')
                | None => None
                end
            end
      end
  end
with read_elements (fuel : nat) (s : list ascii) {struct fuel}
  : option (list json * list ascii) :=
  match fuel with
  | O => None
  | S n =>
      match read_value n s with
      | Some (v, r) =>
          match skip_ws r with
          | x :: r' =>
              if Ascii.eqb x ","%char then
                match read_elements n r' with
                | Some (l, r'') => Some (v :: l, r'')
                | None => None
                end
              else if Ascii.eqb x "]"%char then Some ([v], r')
              else None
          | [] => None
          end
      | None => None
      end
  end
with read_members (fuel : nat) (d : list (string * json)) (s : list ascii)
  {struct fuel} : option (list (string * json) * list ascii) :=
  match fuel with
  | O => None
  | S n =>
      match skip_ws s with
      | q :: r =>
          if Ascii.eqb q quote then
            match read_string r with
            | Some (k, r1) =>
                match skip_ws r1 with
                | x :: r2 =>
                    if Ascii.eqb x ":"%char then
                      match read_value n r2 with
                      | Some (v, r3) =>
                          match skip_ws r3 with
                          | y :: r4 =>
                              if Ascii.eqb y ","%char then
                                read_members n (dict_set k v d) r4
                              else if Ascii.eqb y "}"%char then
                                Some (dict_set k v d, r4)
                              else None
                          | [] => None
                          end
                      | None => None
                      end
                    else None
                | [] => None
                end
            | None => None
            end
          else None
      | [] => None
      end
  end.

Definition loads (s : string) : option json :=
  let l := list_ascii_of_string s in
  match read_value (S (List.length l)) l with
  | Some (v, r) => match skip_ws r with [] => Some v | _ => None end
  | None => None
  end.

(** [float(s)] for the spellings of an integer and of NaN. *)
Definition to_float (s : string) : option float :=
  let l := skip_ws (list_ascii_of_string s) in
  if String.eqb s "nan" then Some S754_nan
  else
    match l with
    | c :: r =>
        let '(neg, body) := if Ascii.eqb c "-"%char then (true, r) else (false, c :: r) in
        match body with
        | x :: _ =>
            match digit x with
            | Some _ =>
                let '(n, rest) := read_digits 0 body in
                match rest with
                | [] => Some (PyFloat.of_Z (if neg then - n else n))
                | _ => None
                end
            | None => None
            end
        | [] => None
        end
    | [] => None
    end.

(** A run in which every frame handed to the socket is sent. *)
Definition online : Runtime :=
  {| json_loads := loads; float_of_str := to_float; link_at := fun _ => Connected |}.


End Decoder.

(** ** Vocabulary of the properties *)

(** The bounds [keyPressEvent] applies to a coordinate. *)
Definition clamp (hi v : float) : float :=
  PyFloat.py_max (S754_zero false) (PyFloat.py_min v hi).

(** [MAP_WIDTH_TILES - 1.0] and [MAP_HEIGHT_TILES - 1.0] *)
Definition x_max : float := PyFloat.sub (PyFloat.of_Z MAP_WIDTH_TILES) (PyFloat.of_Z 1).
Definition y_max : float := PyFloat.sub (PyFloat.of_Z MAP_HEIGHT_TILES) (PyFloat.of_Z 1).

(** [0 <= x <= 39] and [0 <= y <= 19] *)
Definition on_map (w : GameWindow) : bool :=
  PyFloat.leb (S754_zero false) (player_x w) && PyFloat.leb (player_x w) x_max
  && PyFloat.leb (S754_zero false) (player_y w) && PyFloat.leb (player_y w) y_max.

Definition is_move_key (key : Z) : bool :=
  (key =? Key_W) || (key =? Key_S) || (key =? Key_A) || (key =? Key_D).

(** The test of [send_current_position]. *)
Definition position_differs (w : GameWindow) : bool :=
  PyFloat.neb (last_sent_x w) (player_x w)
  || PyFloat.neb (last_sent_y w) (player_y w)
  || PyFloat.neb (last_sent_z w) (player_z w).

Definition position_has_nan (w : GameWindow) : bool :=
  PyFloat.is_nan (player_x w) || PyFloat.is_nan (player_y w)
  || PyFloat.is_nan (player_z w).

(** Whether [ws.send] finds the connection closed. *)
Definition reports_closed (l : link) : bool :=
  match l with ConnectionClosed => true | _ => false end.

Definition is_submit (e : effect) : bool :=
  match e with Submit _ => true | _ => false end.

Definition is_sent (e : effect) : bool :=
  match e with Sent _ => true | _ => false end.

Definition is_timer_start (e : effect) : bool :=
  match e with TimerStart _ => true | _ => false end.

Definition is_critical (e : effect) : bool :=
  match e with Critical _ => true | _ => false end.

Definition count (p : effect -> bool) (t : list effect) : nat :=
  List.length (filter p t).

(** The state a computation leaves, and whether it raised. *)
Definition after {A} (c : M A) (s : St) : St := snd (c s).

Definition raised {A} (c : M A) (s : St) : option pyexc :=
  match fst (c s) with Val _ => None | Exn e => Some e end.

(** ** Messages used in the scenarios *)

(** The text [s] with every apostrophe read as a double quote, to write a
    JSON text inside a string. *)
Fixpoint json_text (s : string) : string :=
  match s with
  | EmptyString => EmptyString
  | String c s' =>
      String (if Ascii.eqb c "'"%char then Decoder.quote else c) (json_text s')
  end.

Definition initial_players_message : string :=
  json_text "{'type':'InitialPlayers','payload':[{'user_id':1,'x':2,'y':3}]}".


(** The same roster followed by an entry without coordinates. *)
Definition broken_roster_message : string :=
  json_text "{'type':'InitialPlayers','payload':[{'user_id':1,'x':2,'y':3},{'user_id':2}]}".

(** A position of the local player whose x is not a number. *)
Definition nan_position_message : string :=
  json_text "{'type':'PlayerPosition','payload':{'user_id':1,'x':NaN,'y':0}}".

Definition not_json_message : string := "{not json".

Definition self_disconnect_message : string :=
  json_text "{'type':'PlayerDisconnected','payload':{'user_id':1}}".

(** ** Vocabulary of the properties, continued *)

(** The item [update_player_visual] draws for a player at [(x, y)]. *)
Definition drawn (x y : float) : item :=
  {| rect_x := PyFloat.mul x (PyFloat.of_Z TILE_SIZE);
     rect_y := PyFloat.mul y (PyFloat.of_Z TILE_SIZE);
     text_x := PyFloat.add (PyFloat.mul x (PyFloat.of_Z TILE_SIZE))
                 (PyFloat.div (PyFloat.of_Z TILE_SIZE) (PyFloat.of_Z 4));
     text_y := PyFloat.add (PyFloat.mul y (PyFloat.of_Z TILE_SIZE))
                 (PyFloat.div (PyFloat.of_Z TILE_SIZE) (PyFloat.of_Z 4)) |}.

(** [stored] is [req] brought into [0, hi]. *)
Definition clamped (hi req stored : float) : Prop :=
  stored = clamp hi req /\
  PyFloat.leb (S754_zero false) stored = true /\
  PyFloat.leb stored hi = true /\
  (PyFloat.leb (S754_zero false) req = true -> PyFloat.leb req hi = true ->
   PyFloat.eqb stored req = true) /\
  (PyFloat.ltb req (S754_zero false) = true -> stored = S754_zero false) /\
  (PyFloat.ltb hi req = true -> stored = hi).

(** The window with the local player at [(x, y, z)]. *)
Definition window_at (uid : Z) (x y z : float) : St :=
  {| win := set_position x y z (init_window uid); sends := 0%nat; trace := [] |}.

(** The window once [nan_position_message] has been handled. *)
Definition nan_state (rt : Runtime) : St :=
  after (websocket_on_message rt nan_position_message) (init_state 1).


(** Starts of the timer so far. *)
Definition starts (s : St) : nat := count is_timer_start (trace s).

(** One while the timer may still be started, zero once it is. *)
Definition pending (s : St) : nat :=
  if _position_timer_started (win s) then 0%nat else 1%nat.

(** From [s] to [s'] the timer was started only if it was not running, and
    then once. *)
Definition steady (s s' : St) : Prop :=
  (starts s' + pending s' = starts s + pending s)%nat /\ (starts s <= starts s')%nat.

Definition keeps {A} (c : M A) : Prop := forall s, steady s (after c s).

(** The notifications that end a connection for the window. *)
Definition is_drop (e : ui_event) : bool :=
  match e with Closed | ErrorOccurred _ => true | _ => false end.

(** The three ways a message whose handling raised leaves the window. *)
Definition discarded (s s' : St) : Prop := win s' = win s.

Definition roster_cut_short (rt : Runtime) (message : string) (e : pyexc)
  (s s' : St) : Prop :=
  exists data msg_type entries done bad rest s1,
    json_loads rt message = Some data /\
    py_get data "type" JNull = Val msg_type /\
    eq_str msg_type "InitialPlayers" = true /\
    py_get data "payload" JNull = Val (JArr entries) /\
    entries = done ++ bad :: rest /\
    for_each done (initial_player rt) (after (emit (Printed ReceivedInitialPlayers)) s)
      = (Val tt, s1) /\
    initial_player rt bad s1 = (Exn e, s').

Definition own_position_not_shown (rt : Runtime) (message : string) (e : pyexc)
  (s s' : St) : Prop :=
  exists data msg_type payload uid jx jy jz x y z,
    json_loads rt message = Some data /\
    py_get data "type" JNull = Val msg_type /\
    eq_str msg_type "PlayerPosition" = true /\
    py_get data "payload" JNull = Val payload /\
    py_get payload "user_id" JNull = Val uid /\
    eq_int uid (user_id (win s)) = true /\
    py_get payload "x" JNull = Val jx /\ py_float rt jx = Val x /\
    py_get payload "y" JNull = Val jy /\ py_float rt jy = Val y /\
    py_get payload "z" (JFloat (S754_zero false)) = Val jz /\ py_float rt jz = Val z /\
    (py_int x = Exn e \/ py_int y = Exn e) /\
    win s' = set_my_player_item (drawn x y) (set_position x y z (win s)).

(** ** The window as a transition system *)

(** Effects that are neither a frame handed to the socket nor a command to
    the timer. *)
Definition is_note (e : effect) : bool :=
  match e with Printed _ | Critical _ | Sent _ => true | _ => false end.

Definition is_timer_stop (e : effect) : bool :=
  match e with TimerStop => true | _ => false end.

(** Two windows that differ at most in the local position, the local
    item, the label and the status bar. *)
Definition same_core (w w' : GameWindow) : Prop :=
  user_id w' = user_id w /\
  other_players w' = other_players w /\
  position_send_timer w' = position_send_timer w /\
  _position_timer_started w' = _position_timer_started w /\
  last_sent_x w' = last_sent_x w /\
  last_sent_y w' = last_sent_y w /\
  last_sent_z w' = last_sent_z w.

(** The moves the handlers are made of. *)
Inductive step : St -> St -> Prop :=
| step_note s e :
    is_note e = true ->
    step s {| win := win s; sends := sends s; trace := trace s ++ [e] |}
| step_local s w' :
    same_core (win s) w' ->
    step s {| win := w'; sends := sends s; trace := trace s |}
| step_upsert s uid i known :
    eq_int uid (user_id (win s)) = false ->
    contains uid (other_players (win s)) = Val known ->
    step s {| win := set_other_players
                       (if known then set_item uid i (other_players (win s))
                        else other_players (win s) ++ [(uid, i)]) (win s);
              sends := sends s; trace := trace s |}
| step_pop s uid :
    eq_int uid (user_id (win s)) = false ->
    contains uid (other_players (win s)) = Val true ->
    step s {| win := set_other_players (pop uid (other_players (win s))) (win s);
              sends := sends s; trace := trace s |}
| step_timer_start s :
    _position_timer_started (win s) = false ->
    step s {| win := set_timer true true (win s); sends := sends s;
              trace := trace s ++ [TimerStart 100] |}
| step_timer_stop s :
    _position_timer_started (win s) = true ->
    step s {| win := set_timer false false (win s); sends := sends s;
              trace := trace s ++ [TimerStop] |}
| step_send s :
    position_differs (win s) = true ->
    step s {| win := set_last_sent (player_x (win s)) (player_y (win s))
                       (player_z (win s)) (win s);
              sends := S (sends s);
              trace := trace s ++ [Submit (PlayerPosition (user_id (win s))
                                             (player_x (win s)) (player_y (win s))
                                             (player_z (win s)))] |}.

Definition reaches : St -> St -> Prop := clos_refl_trans St step.

(** A computation that only makes such moves, whether it raises or not. *)
Definition moves {A} (c : M A) : Prop := forall s, reaches s (after c s).

(** ** The timer and its flag *)

Definition timer_in_step (s : St) : Prop :=
  position_send_timer (win s) = _position_timer_started (win s) /\
  count is_timer_start (trace s)
  = (count is_timer_stop (trace s)
     + (if _position_timer_started (win s) then 1 else 0))%nat.

(** ** The frames handed to the socket *)

Fixpoint submitted (t : list effect) : list frame :=
  match t with
  | [] => []
  | Submit f :: t' => f :: submitted t'
  | _ :: t' => submitted t'
  end.

Definition frame_uid (f : frame) : Z :=
  match f with PlayerPosition uid _ _ _ => uid end.

Definition frame_position (f : frame) : float * float * float :=
  match f with PlayerPosition _ x y z => (x, y, z) end.

(** [p != q] on positions, as [send_current_position] tests it. *)
Definition differs (p q : float * float * float) : bool :=
  let '(a, b, c) := p in
  let '(x, y, z) := q in
  PyFloat.neb a x || PyFloat.neb b y || PyFloat.neb c z.

(** The position of the last frame, [p] when there is none. *)
Fixpoint last_position (p : float * float * float) (l : list frame)
  : float * float * float :=
  match l with
  | [] => p
  | f :: l' => last_position (frame_position f) l'
  end.

(** Each frame differs from the one before it, the first from [p]. *)
Fixpoint no_repeat (p : float * float * float) (l : list frame) : bool :=
  match l with
  | [] => true
  | f :: l' => differs p (frame_position f) && no_repeat (frame_position f) l'
  end.

(** The value [last_sent_x, last_sent_y, last_sent_z] start with. *)
Definition never_sent : float * float * float :=
  (PyFloat.of_Z (-1), PyFloat.of_Z (-1), PyFloat.of_Z (-1)).

Definition last_sent (w : GameWindow) : float * float * float :=
  (last_sent_x w, last_sent_y w, last_sent_z w).

Definition frames_in_order (u : Z) (s : St) : Prop :=
  user_id (win s) = u /\
  forallb (fun f => frame_uid f =? u) (submitted (trace s)) = true /\
  last_sent (win s) = last_position never_sent (submitted (trace s)) /\
  no_repeat never_sent (submitted (trace s)) = true.

(** ** The dict of the other players *)

(** [other_players[k]] *)
Fixpoint item_of (k : json) (d : list (json * item)) : option item :=
  match d with
  | [] => None
  | (k', i) :: d' => if key_eq k' k then Some i else item_of k d'
  end.

Definition keys (d : list (json * item)) : list json := map fst d.

(** No key equals another one. *)
Fixpoint distinct_keys (l : list json) : bool :=
  match l with
  | [] => true
  | k :: l' =>
      forallb (fun k' => negb (key_eq k k') && negb (key_eq k' k)) l'
      && distinct_keys l'
  end.

Definition roster_ok (u : Z) (s : St) : Prop :=
  user_id (win s) = u /\
  forallb (fun k => negb (eq_int k u)) (keys (other_players (win s))) = true /\
  forallb hashable (keys (other_players (win s))) = true /\
  distinct_keys (keys (other_players (win s))) = true.

(** ** Messages by kind *)

(** The text decodes to a dict whose type is [kind], with this payload. *)
Definition carries (rt : Runtime) (message kind : string) (payload : json) : Prop :=
  exists data msg_type,
    json_loads rt message = Some data /\
    py_get data "type" JNull = Val msg_type /\
    eq_str msg_type kind = true /\
    py_get data "payload" JNull = Val payload.

(** The payload names the player [uid] and the position [(x, y, z)]. *)
Definition places (rt : Runtime) (payload uid : json) (x y z : float) : Prop :=
  py_get payload "user_id" JNull = Val uid /\
  is_none uid = false /\
  exists jx jy jz,
    py_get payload "x" JNull = Val jx /\ py_float rt jx = Val x /\
    py_get payload "y" JNull = Val jy /\ py_float rt jy = Val y /\
    py_get payload "z" (JFloat (S754_zero false)) = Val jz /\ py_float rt jz = Val z.

(** The entries of other players. *)
Definition others_than (uid : json) (d : list (json * item)) : list (json * item) :=
  filter (fun p => negb (key_eq (fst p) uid)) d.

Definition is_float_key (k : json) : bool :=
  match k with JFloat _ => true | _ => false end.

(** ** More messages *)

Definition other_position_message : string :=
  json_text "{'type':'PlayerPosition','payload':{'user_id':7,'x':4,'y':5}}".

Definition own_position_message : string :=
  json_text "{'type':'PlayerPosition','payload':{'user_id':1,'x':50,'y':3}}".

Definition chat_message : string :=
  json_text "{'type':'Chat','payload':{'text':'hi'}}".

Definition anonymous_position_message : string :=
  json_text "{'type':'PlayerPosition','payload':{'x':4,'y':5}}".

Definition other_disconnect_message : string :=
  json_text "{'type':'PlayerDisconnected','payload':{'user_id':7}}".

(** ** The worker and the window together *)

(** The slot each signal of the worker is connected to, as the event the
    window's thread is given. *)
Definition slot (sig : Transport.signal) : ui_event :=
  match sig with
  | Transport.message_received message => MessageReceived message
  | Transport.error_occurred error => ErrorOccurred error
  | Transport.closed => Closed
  | Transport.opened => Opened
  end.

Fixpoint delivered (acts : list Transport.action) : list ui_event :=
  match acts with
  | [] => []
  | Transport.Emit sig :: acts' => slot sig :: delivered acts'
  | _ :: acts' => delivered acts'
  end.

(** ** Messages on their way to the window *)

(** The messages the library hands to [on_message] during a connection. *)
Fixpoint received (hs : list Transport.happening) : list string :=
  match hs with
  | [] => []
  | Transport.OnMessage m :: hs' => m :: received hs'
  | _ :: hs' => received hs'
  end.

Definition heard (a : Transport.attempt) : list string :=
  match a with
  | Transport.CreationRaises => []
  | Transport.RunForever during _ => received during
  end.

(** The messages the worker emits with [message_received]. *)
Fixpoint forwarded (acts : list Transport.action) : list string :=
  match acts with
  | [] => []
  | Transport.Emit (Transport.message_received m) :: acts' => m :: forwarded acts'
  | _ :: acts' => forwarded acts'
  end.

(** ** The socket during a send *)

Definition is_connected (l : link) : bool :=
  match l with Connected => true | _ => false end.

(** ** What the worker does *)

Definition is_sleep (a : Transport.action) : bool :=
  match a with Transport.Sleep _ => true | _ => false end.

Definition is_close_socket (a : Transport.action) : bool :=
  match a with Transport.CloseSocket => true | _ => false end.

(** Every sleep lasts 5 seconds. *)
Definition sleeps_five (a : Transport.action) : bool :=
  match a with Transport.Sleep n => n =? 5 | _ => true end.

(** ** The login dialog and the start of the game *)

Module Auth.

Definition DEFAULT_SERVER_IP : string := "127.0.0.1".
Definition DEFAULT_SERVER_PORT : string := "3000".

(** The texts of the four line edits. *)
Record AuthDialog := {
  login_input : string;
  password_input : string;
  server_ip_input : string;
  server_port_input : string
}.

(** [AuthDialog.init_ui] *)
Definition init_dialog : AuthDialog :=
  {| login_input := "123"; password_input := "123";
     server_ip_input := DEFAULT_SERVER_IP;
     server_port_input := DEFAULT_SERVER_PORT |}.

(** [text or default] *)
Definition or_default (text default : string) : string :=
  if String.eqb text "" then default else text.

Definition get_base_url (d : AuthDialog) : string :=
  let ip := or_default (server_ip_input d) DEFAULT_SERVER_IP in
  let port := or_default (server_port_input d) DEFAULT_SERVER_PORT in
  String.append "http://" (String.append ip (String.append ":" port)).

Definition get_websocket_url (d : AuthDialog) : string :=
  let ip := or_default (server_ip_input d) DEFAULT_SERVER_IP in
  let port := or_default (server_port_input d) DEFAULT_SERVER_PORT in
  String.append "ws://"
    (String.append ip (String.append ":" (String.append port "/api/ws"))).

(** What [requests.post] gives: an answer, whose [json()] may raise, or an
    exception. *)
Record response := {
  status_code : Z;
  text : string;
  body : option json
}.

Inductive post_result :=
| ConnectionError            (* requests.exceptions.ConnectionError *)
| OtherError                 (* any other exception *)
| Answer (r : response).

(** The server and the libraries, as the dialog meets them. *)
Record Web := {
  (** [requests.post(url, json={login, password})], at the n-th request *)
  post : nat -> string -> string -> string -> post_result;
  (** the claims of a token, [jwt.decode] without verification; [None]
      when it raises *)
  jwt_decode : string -> option json;
  (** [int(s)] of a string; [None] stands for ValueError *)
  int_of_str : string -> option Z;
  (** the int a [pyqtSignal(int, ...)] delivers for a Python int; [None]
      when emitting raises *)
  signal_int : Z -> option Z
}.

Inductive box :=
| EmptyCredentials           (* warning: login and password must not be empty *)
| RegistrationDone           (* information *)
| RegistrationRefused (answer : string)   (* warning *)
| LoginRefused (answer : string)          (* warning *)
| TokenMissing               (* warning *)
| TokenError                 (* critical *)
| NoConnection               (* critical *)
| UnknownError.              (* critical *)

Inductive act :=
| Post (url login password : string)
| MessageBox (b : box)
| LoginSuccessful (user_id : Z) (token base_url websocket_url : string)
| Accept.

(** [int(v)] *)
Definition int_of (web : Web) (v : json) : option Z :=
  match v with
  | JInt n => Some n
  | JBool b => Some (if b then 1 else 0)
  | JFloat f => match py_int f with Val n => Some n | Exn _ => None end
  | JStr s => int_of_str web s
  | _ => None
  end.

(** The inner [try] of [login]: the user id the signal delivers, or
    [None] when anything in it raises. *)
Definition token_user (web : Web) (token : json) : option (Z * string) :=
  match token with
  | JStr t =>
      match jwt_decode web t with
      | Some decoded =>
          match py_get decoded "sub" JNull with
          | Val sub =>
              match int_of web sub with
              | Some n =>
                  match signal_int web n with
                  | Some uid => Some (uid, t)
                  | None => None
                  end
              | None => None
              end
          | Exn _ => None
          end
      | None => None
      end
  | _ => None
  end.

(** [AuthDialog.register] when [n] requests have been made. *)
Definition register (web : Web) (n : nat) (d : AuthDialog) : list act :=
  if String.eqb (login_input d) "" || String.eqb (password_input d) "" then
    [MessageBox EmptyCredentials]
  else
    let url := String.append (get_base_url d) "/api/register" in
    Post url (login_input d) (password_input d) ::
    match post web n url (login_input d) (password_input d) with
    | Answer r =>
        if status_code r =? 200 then [MessageBox RegistrationDone]
        else [MessageBox (RegistrationRefused (text r))]
    | ConnectionError => [MessageBox NoConnection]
    | OtherError => [MessageBox UnknownError]
    end.

(** [AuthDialog.login] when [n] requests have been made. *)
Definition login (web : Web) (n : nat) (d : AuthDialog) : list act :=
  if String.eqb (login_input d) "" || String.eqb (password_input d) "" then
    [MessageBox EmptyCredentials]
  else
    let url := String.append (get_base_url d) "/api/login" in
    Post url (login_input d) (password_input d) ::
    match post web n url (login_input d) (password_input d) with
    | Answer r =>
        if status_code r =? 200 then
          match body r with
          | Some data =>
              match py_get data "token" JNull with
              | Val token =>
                  if truthy token then
                    match token_user web token with
                    | Some (uid, t) =>
                        [LoginSuccessful uid t (get_base_url d) (get_websocket_url d);
                         Accept]
                    | None => [MessageBox TokenError]
                    end
                  else [MessageBox TokenMissing]
              | Exn _ => [MessageBox UnknownError]
              end
          | None => [MessageBox UnknownError]
          end
        else [MessageBox (LoginRefused (text r))]
    | ConnectionError => [MessageBox NoConnection]
    | OtherError => [MessageBox UnknownError]
    end.

(** What the user does with the dialog. *)
Inductive input :=
| TypeLogin (s : string)
| TypePassword (s : string)
| TypeServerIp (s : string)
| TypeServerPort (s : string)
| ClickLogin
| ClickRegister
| CloseDialog.

(** The four globals [handle_login_successful] sets. *)
Record session := {
  current_user_id : Z;
  jwt_token : string;
  SERVER_HOST_URL : string;
  WEBSOCKET_URL_FOR_GAME : string
}.

Inductive dialog_code := Accepted | Rejected.

Record App := {
  dialog : AuthDialog;
  requests : nat;                  (* requests made so far *)
  globals : option session;        (* [None]: the globals are still None *)
  result : option dialog_code;     (* [exec_] has returned *)
  log : list act
}.

Definition start : App :=
  {| dialog := init_dialog; requests := 0%nat; globals := None; result := None;
     log := [] |}.

Definition is_post (a : act) : bool :=
  match a with Post _ _ _ => true | _ => false end.

Definition is_box (a : act) : bool :=
  match a with MessageBox _ => true | _ => false end.

Definition is_accept (a : act) : bool :=
  match a with Accept => true | _ => false end.

Definition is_success (a : act) : bool :=
  match a with LoginSuccessful _ _ _ _ => true | _ => false end.

(** The slot [handle_login_successful] and [accept], for what a click did. *)
Fixpoint settle (acts : list act) (a : App) : App :=
  match acts with
  | [] => a
  | LoginSuccessful uid t base wsurl :: acts' =>
      settle acts'
        {| dialog := dialog a; requests := requests a;
           globals := Some {| current_user_id := uid; jwt_token := t;
                              SERVER_HOST_URL := base;
                              WEBSOCKET_URL_FOR_GAME := wsurl |};
           result := result a; log := log a |}
  | Accept :: acts' =>
      settle acts'
        {| dialog := dialog a; requests := requests a; globals := globals a;
           result := Some Accepted; log := log a |}
  | Post _ _ _ :: acts' =>
      settle acts'
        {| dialog := dialog a; requests := S (requests a); globals := globals a;
           result := result a; log := log a |}
  | MessageBox _ :: acts' => settle acts' a
  end.

Definition edit (f : AuthDialog -> AuthDialog) (a : App) : App :=
  {| dialog := f (dialog a); requests := requests a; globals := globals a;
     result := result a; log := log a |}.

Definition record (acts : list act) (a : App) : App :=
  {| dialog := dialog a; requests := requests a; globals := globals a;
     result := result a; log := log a ++ acts |}.

(** One input while [exec_] runs; nothing once it has returned. *)
Definition handle (web : Web) (i : input) (a : App) : App :=
  match result a with
  | Some _ => a
  | None =>
      match i with
      | TypeLogin s =>
          edit (fun d => {| login_input := s; password_input := password_input d;
                            server_ip_input := server_ip_input d;
                            server_port_input := server_port_input d |}) a
      | TypePassword s =>
          edit (fun d => {| login_input := login_input d; password_input := s;
                            server_ip_input := server_ip_input d;
                            server_port_input := server_port_input d |}) a
      | TypeServerIp s =>
          edit (fun d => {| login_input := login_input d;
                            password_input := password_input d;
                            server_ip_input := s;
                            server_port_input := server_port_input d |}) a
      | TypeServerPort s =>
          edit (fun d => {| login_input := login_input d;
                            password_input := password_input d;
                            server_ip_input := server_ip_input d;
                            server_port_input := s |}) a
      | ClickLogin =>
          let acts := login web (requests a) (dialog a) in
          settle acts (record acts a)
      | ClickRegister =>
          let acts := register web (requests a) (dialog a) in
          settle acts (record acts a)
      | CloseDialog =>
          {| dialog := dialog a; requests := requests a; globals := globals a;
             result := Some Rejected; log := log a |}
      end
  end.

Definition exec_ (web : Web) (inputs : list input) : App :=
  fold_left (fun a i => handle web i a) inputs start.

(** How the program goes on after the dialog. *)
Inductive outcome :=
| StillOpen                       (* [exec_] has not returned *)
| Game (w : GameWindow) (token websocket_url : string)
| LaunchError                     (* critical box, exit code 1 *)
| Exited.                           (* exit code 0 *)

Definition main (web : Web) (inputs : list input) : outcome :=
  let a := exec_ web inputs in
  match result a with
  | None => StillOpen
  | Some Accepted =>
      match globals a with
      | Some g => Game (init_window (current_user_id g)) (jwt_token g)
                    (WEBSOCKET_URL_FOR_GAME g)
      | None => LaunchError
      end
  | Some Rejected => Exited
  end.

Definition times (p : act -> bool) (l : list act) : nat :=
  List.length (filter p l).

(** A server that lets everybody in as the user 7. *)
Definition open_door : Web :=
  {| post := fun _ _ _ _ =>
       Answer {| status_code := 200; text := "ok";
                 body := Some (JObj [("token", JStr "t0k3n")]) |};
     jwt_decode := fun _ => Some (JObj [("sub", JStr "7")]);
     int_of_str := fun s => if String.eqb s "7" then Some 7 else None;
     signal_int := fun n => Some n |}.

(** The posts of a session carry the texts of the dialog at that time. *)
Definition posted_by_dialog (a : act) : Prop :=
  forall url l p, a = Post url l p ->
    l <> "" /\ p <> "" /\
    exists d, l = login_input d /\ p = password_input d /\
      (url = String.append (get_base_url d) "/api/login" \/
       url = String.append (get_base_url d) "/api/register").

(** What holds of the application while and after the dialog runs. *)
Definition consistent (a : App) : Prop :=
  times is_post (log a) = requests a /\
  Forall posted_by_dialog (log a) /\
  match result a with
  | Some Accepted =>
      exists g before,
        globals a = Some g /\
        log a = before ++ [LoginSuccessful (current_user_id g) (jwt_token g)
                             (SERVER_HOST_URL g) (WEBSOCKET_URL_FOR_GAME g); Accept] /\
        times is_success before = 0%nat
  | _ => globals a = None /\ times is_success (log a) = 0%nat
  end.

Definition sign_in : list input :=
  [TypePassword ""; ClickLogin; TypeLogin "ann"; TypePassword "pw"; ClickRegister;
   ClickLogin; ClickRegister].

End Auth.

(** * Properties *)

(** ** Comparison of floats *)

Lemma SFcompare_antisym (a b : float) :
  SFcompare b a = option_map CompOpp (SFcompare a b).
Proof.
  destruct a as [sa|sa| |sa ma ea], b as [sb|sb| |sb mb eb]; simpl;
    try reflexivity; try (destruct sa; reflexivity); try (destruct sb; reflexivity);
    try (destruct sa, sb; reflexivity).
  destruct sa, sb; simpl; try reflexivity;
    change (Pos.compare_cont Eq mb ma) with (Pos.compare mb ma);
    change (Pos.compare_cont Eq ma mb) with (Pos.compare ma mb);
    rewrite (Z.compare_antisym ea eb), (Pos.compare_antisym ma mb);
    destruct (ea ?= eb); simpl; try reflexivity;
    destruct (Pos.compare ma mb); reflexivity.
Qed.

Lemma SFcompare_defined (a b : float) :
  PyFloat.is_nan a = false -> PyFloat.is_nan b = false ->
  exists c, SFcompare a b = Some c.
Proof.
  destruct a, b; simpl; intros; try discriminate; eauto.
Qed.

Lemma SFcompare_refl (a : float) :
  PyFloat.is_nan a = false -> SFcompare a a = Some Eq.
Proof.
  destruct a as [s|s| |s m e]; simpl; intros H; try discriminate; try reflexivity.
  - destruct s; reflexivity.
  - rewrite Z.compare_refl. change (Pos.compare_cont Eq m m) with (Pos.compare m m).
    rewrite Pos.compare_refl. destruct s; reflexivity.
Qed.

Lemma ltb_not_nan (a b : float) :
  PyFloat.ltb a b = true -> PyFloat.is_nan a = false /\ PyFloat.is_nan b = false.
Proof.
  unfold PyFloat.ltb, SFltb. destruct a, b; simpl; intros H; try discriminate; auto.
Qed.

Lemma leb_not_nan (a b : float) :
  PyFloat.leb a b = true -> PyFloat.is_nan a = false /\ PyFloat.is_nan b = false.
Proof.
  unfold PyFloat.leb, SFleb. destruct a, b; simpl; intros H; try discriminate; auto.
Qed.

Lemma ltb_leb (a b : float) : PyFloat.ltb a b = true -> PyFloat.leb a b = true.
Proof.
  unfold PyFloat.ltb, PyFloat.leb, SFltb, SFleb.
  destruct (SFcompare a b) as [[]|]; intros H; try discriminate; reflexivity.
Qed.

Lemma leb_refl (a : float) : PyFloat.is_nan a = false -> PyFloat.leb a a = true.
Proof.
  intros H. unfold PyFloat.leb, SFleb. now rewrite (SFcompare_refl a H).
Qed.

Lemma eqb_refl (a : float) : PyFloat.is_nan a = false -> PyFloat.eqb a a = true.
Proof.
  intros H. unfold PyFloat.eqb, SFeqb. now rewrite (SFcompare_refl a H).
Qed.

(** [a != a] is false unless [a] is NaN. *)
Lemma neb_refl (a : float) : PyFloat.is_nan a = false -> PyFloat.neb a a = false.
Proof.
  intros H. unfold PyFloat.neb. fold (PyFloat.eqb a a). now rewrite eqb_refl.
Qed.

Lemma not_ltb_leb (a b : float) :
  PyFloat.ltb a b = false -> PyFloat.is_nan a = false -> PyFloat.is_nan b = false ->
  PyFloat.leb b a = true.
Proof.
  unfold PyFloat.ltb, PyFloat.leb, SFltb, SFleb. intros H Ha Hb.
  rewrite (SFcompare_antisym a b).
  destruct (SFcompare_defined a b Ha Hb) as [c Hc]. rewrite Hc in *.
  destruct c; simpl; try reflexivity; discriminate.
Qed.

Lemma leb_not_ltb (a b : float) : PyFloat.leb a b = true -> PyFloat.ltb b a = false.
Proof.
  unfold PyFloat.ltb, PyFloat.leb, SFltb, SFleb. rewrite (SFcompare_antisym a b).
  destruct (SFcompare a b) as [[]|]; simpl; intros H; try discriminate; reflexivity.
Qed.

Lemma leb_not_ltb_eqb (a b : float) :
  PyFloat.leb a b = true -> PyFloat.ltb a b = false -> PyFloat.eqb a b = true.
Proof.
  unfold PyFloat.ltb, PyFloat.leb, PyFloat.eqb, SFltb, SFleb, SFeqb.
  destruct (SFcompare a b) as [[]|]; simpl; intros H1 H2; try discriminate; reflexivity.
Qed.

(** ** The bounds of the map *)

Lemma clamp_bounds (hi v : float) :
  PyFloat.leb (S754_zero false) hi = true ->
  PyFloat.leb (S754_zero false) (clamp hi v) = true /\
  PyFloat.leb (clamp hi v) hi = true.
Proof.
  intros Hhi. destruct (leb_not_nan _ _ Hhi) as [_ Hn].
  unfold clamp, PyFloat.py_max, PyFloat.py_min.
  destruct (PyFloat.ltb hi v) eqn:E1.
  - destruct (PyFloat.ltb (S754_zero false) hi) eqn:E2.
    + split; [assumption | now apply leb_refl].
    + split; [reflexivity | assumption].
  - destruct (PyFloat.ltb (S754_zero false) v) eqn:E2.
    + split; [now apply ltb_leb |].
      apply not_ltb_leb; [assumption | assumption | now apply (ltb_not_nan _ _ E2)].
    + split; [reflexivity | assumption].
Qed.

(** In range, the bounds give back the value asked for. *)
Lemma clamp_in_range (hi v : float) :
  PyFloat.leb (S754_zero false) v = true -> PyFloat.leb v hi = true ->
  PyFloat.eqb (clamp hi v) v = true.
Proof.
  intros H0 H1. unfold clamp, PyFloat.py_max, PyFloat.py_min.
  rewrite (leb_not_ltb _ _ H1).
  destruct (PyFloat.ltb (S754_zero false) v) eqn:E.
  - apply eqb_refl. now apply (leb_not_nan _ _ H1).
  - now apply leb_not_ltb_eqb.
Qed.

Lemma clamp_above (hi v : float) :
  PyFloat.ltb (S754_zero false) hi = true ->
  PyFloat.ltb hi v = true -> clamp hi v = hi.
Proof.
  intros H0 H1. unfold clamp, PyFloat.py_max, PyFloat.py_min. now rewrite H1, H0.
Qed.

Lemma clamp_below (hi v : float) :
  PyFloat.ltb (S754_zero false) hi = true ->
  PyFloat.ltb v (S754_zero false) = true -> clamp hi v = S754_zero false.
Proof.
  intros H0 H1. unfold clamp, PyFloat.py_max, PyFloat.py_min.
  assert (Hv : PyFloat.ltb (S754_zero false) v = false)
    by (apply leb_not_ltb; now apply ltb_leb).
  destruct (PyFloat.ltb hi v) eqn:E.
  - exfalso. destruct hi as [|[]| |[] ? ?], v as [|[]| |[] ? ?]; simpl in *; discriminate.
  - now rewrite Hv.
Qed.

(** What the bounds leave is neither NaN nor infinite: [int] accepts it. *)
Lemma clamp_int (hi v : float) :
  PyFloat.ltb (S754_zero false) hi = true ->
  (exists n, py_int hi = Val n) ->
  exists n, py_int (clamp hi v) = Val n.
Proof.
  intros H0 [n Hn]. unfold clamp, PyFloat.py_max, PyFloat.py_min.
  destruct (PyFloat.ltb hi v) eqn:E1.
  - rewrite H0. eauto.
  - destruct (PyFloat.ltb (S754_zero false) v) eqn:E2; [|simpl; eauto].
    destruct v as [|[]| |s m e]; simpl in *; try discriminate; eauto.
    destruct hi as [|[]| |[] ? ?]; simpl in *; discriminate.
Qed.

Lemma clamp_clamped (hi req : float) :
  PyFloat.ltb (S754_zero false) hi = true -> clamped hi req (clamp hi req).
Proof.
  intros H. unfold clamped. split; [reflexivity|].
  destruct (clamp_bounds hi req (ltb_leb _ _ H)) as [B1 B2].
  repeat split; try assumption.
  - apply clamp_in_range.
  - now apply clamp_below.
  - now apply clamp_above.
Qed.

Lemma x_max_pos : PyFloat.ltb (S754_zero false) x_max = true.
Proof. reflexivity. Qed.

Lemma y_max_pos : PyFloat.ltb (S754_zero false) y_max = true.
Proof. reflexivity. Qed.

(** ** Running a computation step by step *)

Lemma bind_lift {A B} (r : res A) (k : A -> M B) s :
  (x <- lift r ;; k x) s = match r with Val a => k a s | Exn e => (Exn e, s) end.
Proof. unfold bind, lift. destruct r; reflexivity. Qed.

Lemma bind_get {B} (k : GameWindow -> M B) s :
  (w <- get ;; k w) s = k (win s) s.
Proof. reflexivity. Qed.

Lemma bind_emit {B} (x : effect) (k : M B) s :
  (emit x ;; k) s = k {| win := win s; sends := sends s; trace := trace s ++ [x] |}.
Proof. reflexivity. Qed.

Lemma bind_modify {B} f (k : M B) s :
  (modify f ;; k) s = k {| win := f (win s); sends := sends s; trace := trace s |}.
Proof. reflexivity. Qed.

Lemma bind_ret {B} (k : M B) s : (ret tt ;; k) s = k s.
Proof. reflexivity. Qed.

Lemma after_bind {A B} (c : M A) (k : A -> M B) s :
  after (bind c k) s =
    match fst (c s) with
    | Val a => after (k a) (after c s)
    | Exn _ => after c s
    end.
Proof. unfold after, bind. destruct (c s) as [[a|e] s1]; reflexivity. Qed.

Lemma count_app p (a b : list effect) : count p (a ++ b) = (count p a + count p b)%nat.
Proof. unfold count. now rewrite filter_app, length_app. Qed.

(** ** Sending the position *)

Lemma send_current_position_keeps rt s :
  let s' := after (send_current_position rt) s in
  raised (send_current_position rt) s = None /\
  player_x (win s') = player_x (win s) /\
  player_y (win s') = player_y (win s) /\
  player_z (win s') = player_z (win s).
Proof.
  unfold after, raised, send_current_position, send_message, handle_websocket_close.
  unfold bind, get, modify, emit, ret. cbn [win fst snd sends trace].
  destruct (PyFloat.neb _ _ || PyFloat.neb _ _ || PyFloat.neb _ _); cbn;
    [|repeat split; reflexivity].
  destruct (link_at rt (sends s)); cbn; try (repeat split; reflexivity).
  destruct (_position_timer_started (win s)); cbn; repeat split; reflexivity.
Qed.

Lemma send_current_position_idle rt s :
  position_differs (win s) = false -> send_current_position rt s = (Val tt, s).
Proof.
  unfold position_differs, send_current_position, bind, get. cbn [win fst snd].
  intros ->. reflexivity.
Qed.

Lemma send_current_position_sends rt s :
  position_differs (win s) = true ->
  let s1 := after (send_current_position rt) s in
  let f := PlayerPosition (user_id (win s)) (player_x (win s)) (player_y (win s))
             (player_z (win s)) in
  last_sent_x (win s1) = player_x (win s) /\
  last_sent_y (win s1) = player_y (win s) /\
  last_sent_z (win s1) = player_z (win s) /\
  filter is_submit (trace s1) = filter is_submit (trace s) ++ [Submit f] /\
  (link_at rt (sends s) = NotConnected ->
   trace s1 = trace s ++ [Submit f; Printed NotConnectedCannotSend]).
Proof.
  unfold position_differs, after, send_current_position, send_message,
    handle_websocket_close.
  unfold bind, get, modify, emit, ret. cbn [win fst snd sends trace].
  intros ->.
  destruct (link_at rt (sends s)) eqn:L; cbn;
    try destruct (_position_timer_started (win s)); cbn;
    repeat rewrite filter_app; cbn; rewrite ?app_nil_r;
    repeat split; try reflexivity; try discriminate.
  all: try (intros _; now rewrite <- app_assoc).
Qed.

Lemma same_position_idle w :
  position_has_nan w = false ->
  last_sent_x w = player_x w -> last_sent_y w = player_y w ->
  last_sent_z w = player_z w ->
  position_differs w = false.
Proof.
  unfold position_has_nan, position_differs. intros Hn -> -> ->.
  apply orb_false_elim in Hn as [Hn Hz]. apply orb_false_elim in Hn as [Hx Hy].
  now rewrite !neb_refl.
Qed.

(** ** Key presses *)

Lemma not_move_key key w :
  is_move_key key = false -> requested key w = (player_x w, player_y w, false).
Proof.
  unfold is_move_key, requested. intros H.
  destruct (key =? Key_W); [discriminate|].
  destruct (key =? Key_S); [discriminate|].
  destruct (key =? Key_A); [discriminate|].
  destruct (key =? Key_D); [discriminate|reflexivity].
Qed.

Lemma move_key key w :
  is_move_key key = true -> snd (requested key w) = true.
Proof.
  unfold requested, is_move_key. intros H.
  destruct (key =? Key_W); [reflexivity|].
  destruct (key =? Key_S); [reflexivity|].
  destruct (key =? Key_A); [reflexivity|].
  destruct (key =? Key_D); [reflexivity|discriminate].
Qed.

(** A move stores the bounded target, draws it, shows it, and sends it. *)
Lemma keyPressEvent_move rt key s :
  is_move_key key = true ->
  exists lx ly,
    let w := win s in
    let nx := clamp x_max (fst (fst (requested key w))) in
    let ny := clamp y_max (snd (fst (requested key w))) in
    keyPressEvent rt key s =
      send_current_position rt
        {| win := set_position_label (lx, ly)
                    (set_my_player_item (drawn nx ny)
                       (set_position nx ny (player_z w) w));
           sends := sends s; trace := trace s |}.
Proof.
  intros Hk.
  destruct (clamp_int x_max (fst (fst (requested key (win s)))) x_max_pos) as [lx Hx];
    [eexists; reflexivity|].
  destruct (clamp_int y_max (snd (fst (requested key (win s)))) y_max_pos) as [ly Hy];
    [eexists; reflexivity|].
  exists lx, ly. cbv zeta.
  pose proof (move_key key (win s) Hk) as Hm.
  unfold keyPressEvent.
  destruct (requested key (win s)) as [[rx ry] mv] eqn:R.
  rewrite bind_get, R. cbn [fst snd] in *. subst mv.
  fold x_max y_max. fold (clamp x_max rx) (clamp y_max ry).
  unfold update_player_visual, show_position, drawn.
  unfold bind, lift, get, modify, ret; simpl.
  rewrite Z.eqb_refl; simpl. rewrite Hx, Hy; simpl. rewrite Hx, Hy. reflexivity.
Qed.

Lemma key_press_moves rt key s :
  is_move_key key = true ->
  let w := win s in
  let w' := win (after (keyPressEvent rt key) s) in
  raised (keyPressEvent rt key) s = None /\
  player_x w' = clamp x_max (fst (fst (requested key w))) /\
  player_y w' = clamp y_max (snd (fst (requested key w))) /\
  player_z w' = player_z w.
Proof.
  intros Hk. cbv zeta.
  destruct (keyPressEvent_move rt key s Hk) as (lx & ly & E).
  unfold after, raised. rewrite E.
  match goal with |- context [send_current_position rt ?X] =>
    destruct (send_current_position_keeps rt X) as (R & Px & Py & Pz) end.
  unfold after, raised in *. rewrite Px, Py, Pz.
  split; [exact R|]. repeat split; reflexivity.
Qed.

(** C7. A key press that moves the player stores the x it asks for brought
    into [0, MAP_WIDTH_TILES - 1] and the y brought into
    [0, MAP_HEIGHT_TILES - 1], and does not touch z. On the 40-wide map,
    asking for x = -5 stores 0 and asking for x = 45 stores 39. *)
Theorem key_press_clamps rt key s :
  is_move_key key = true ->
  let w := win s in
  let w' := win (after (keyPressEvent rt key) s) in
  raised (keyPressEvent rt key) s = None /\
  clamped x_max (fst (fst (requested key w))) (player_x w') /\
  clamped y_max (snd (fst (requested key w))) (player_y w') /\
  player_z w' = player_z w /\
  x_max = PyFloat.of_Z (MAP_WIDTH_TILES - 1) /\
  y_max = PyFloat.of_Z (MAP_HEIGHT_TILES - 1) /\
  clamp x_max (PyFloat.of_Z (-5)) = PyFloat.of_Z 0 /\
  clamp x_max (PyFloat.of_Z 45) = PyFloat.of_Z 39.
Proof.
  intros Hk. cbv zeta.
  destruct (key_press_moves rt key s Hk) as (R & Px & Py & Pz).
  rewrite Px, Py, Pz.
  split; [exact R|].
  split; [apply clamp_clamped; reflexivity|].
  split; [apply clamp_clamped; reflexivity|].
  repeat split; reflexivity.
Qed.

(** The player stands at x = -4 and presses A: x = -5 is asked for, 0 is
    stored. *)
Lemma key_press_clamps_witness :
  let s := window_at 1 (PyFloat.of_Z (-4)) (PyFloat.of_Z 0) (PyFloat.of_Z 0) in
  is_move_key Key_A = true /\
  fst (fst (requested Key_A (win s))) = PyFloat.of_Z (-5) /\
  player_x (win (after (keyPressEvent Decoder.online Key_A) s)) = PyFloat.of_Z 0.
Proof.
  cbv zeta. split; [reflexivity|]. split; [reflexivity|].
  destruct (key_press_clamps Decoder.online Key_A
              (window_at 1 (PyFloat.of_Z (-4)) (PyFloat.of_Z 0) (PyFloat.of_Z 0))
              eq_refl) as (_ & (_ & _ & _ & _ & B & _) & _).
  apply B. reflexivity.
Defined.

(** C10. A key press at a position with 0 <= x <= 39 and 0 <= y <= 19 ends
    at such a position and does not change z; a key other than W, A, S, D
    changes nothing at all: same window, nothing handed to the socket,
    nothing added to the trace. *)
Theorem key_press_stays_on_map rt key s :
  on_map (win s) = true ->
  let s' := after (keyPressEvent rt key) s in
  raised (keyPressEvent rt key) s = None /\
  on_map (win s') = true /\
  player_z (win s') = player_z (win s) /\
  (is_move_key key = false ->
   s' = s /\
   player_x (win s') = player_x (win s) /\
   player_y (win s') = player_y (win s) /\
   count is_submit (trace s') = count is_submit (trace s)).
Proof.
  intros Hm. cbv zeta.
  destruct (is_move_key key) eqn:Hk.
  - destruct (key_press_moves rt key s Hk) as (R & Px & Py & Pz).
    split; [exact R|]. split; [|split; [exact Pz| discriminate]].
    destruct (clamp_bounds x_max (fst (fst (requested key (win s))))
                (ltb_leb _ _ x_max_pos)) as [X1 X2].
    destruct (clamp_bounds y_max (snd (fst (requested key (win s))))
                (ltb_leb _ _ y_max_pos)) as [Y1 Y2].
    unfold on_map. now rewrite Px, Py, X1, X2, Y1, Y2.
  - assert (E : keyPressEvent rt key s = (Val tt, s)).
    { unfold keyPressEvent. rewrite bind_get.
      rewrite (not_move_key key (win s) Hk). reflexivity. }
    unfold after, raised. rewrite E. cbn [fst snd]. repeat split; auto.
Qed.

Lemma key_press_stays_on_map_witness :
  on_map (win (init_state 1)) = true /\
  on_map (win (after (keyPressEvent Decoder.online Key_W) (init_state 1))) = true.
Proof.
  split; [reflexivity|].
  exact (proj1 (proj2 (key_press_stays_on_map Decoder.online Key_W (init_state 1) eq_refl))).
Defined.

(** ** Two calls in a row *)

(** C4, as the code has it. When the position differs from the last one
    sent and none of its coordinates is NaN, two calls of
    [send_current_position] in a row hand exactly one frame to the socket:
    the first call sends and records the position as sent, the second
    finds it equal to the recorded one in x, y and z and does nothing. *)
Theorem two_sends_one_frame rt s :
  position_differs (win s) = true ->
  position_has_nan (win s) = false ->
  let s1 := after (send_current_position rt) s in
  let s2 := after (send_current_position rt) s1 in
  count is_submit (trace s1) = S (count is_submit (trace s)) /\
  last_sent_x (win s1) = player_x (win s) /\
  last_sent_y (win s1) = player_y (win s) /\
  last_sent_z (win s1) = player_z (win s) /\
  s2 = s1 /\
  count is_submit (trace s2) = S (count is_submit (trace s)).
Proof.
  intros Hd Hn. cbv zeta.
  destruct (send_current_position_sends rt s Hd) as (Lx & Ly & Lz & F & _).
  destruct (send_current_position_keeps rt s) as (_ & Px & Py & Pz).
  assert (C : count is_submit (trace (after (send_current_position rt) s))
              = S (count is_submit (trace s))).
  { unfold count. rewrite F, length_app. cbn. lia. }
  assert (I : position_differs (win (after (send_current_position rt) s)) = false).
  { apply same_position_idle; try congruence.
    unfold position_has_nan. now rewrite Px, Py, Pz. }
  assert (E : after (send_current_position rt) (after (send_current_position rt) s)
              = after (send_current_position rt) s).
  { unfold after at 1. now rewrite (send_current_position_idle rt _ I). }
  rewrite E. repeat split; assumption.
Qed.

Lemma two_sends_one_frame_witness :
  let s := init_state 1 in
  position_differs (win s) = true /\
  position_has_nan (win s) = false /\
  count is_submit
    (trace (after (send_current_position Decoder.online)
              (after (send_current_position Decoder.online) s))) = 1%nat.
Proof.
  cbv zeta. split; [reflexivity|]. split; [reflexivity|].
  exact (proj2 (proj2 (proj2 (proj2 (proj2
           (two_sends_one_frame Decoder.online (init_state 1) eq_refl eq_refl)))))).
Defined.

(** Against C4 as the specification states it: the server gives the local
    player the x NaN; the position then differs from the last one sent, it
    does not change between the two calls, and both calls hand a frame to
    the socket. *)
Lemma nan_position_is_sent_twice :
  let s := nan_state Decoder.online in
  let s1 := after (send_current_position Decoder.online) s in
  let s2 := after (send_current_position Decoder.online) s1 in
  position_differs (win s) = true /\
  player_x (win s1) = player_x (win s) /\
  player_y (win s1) = player_y (win s) /\
  player_z (win s1) = player_z (win s) /\
  count is_submit (trace s) = 0%nat /\
  count is_submit (trace s2) = 2%nat /\
  (* the same through the timer: the roster's frame, then one per timeout *)
  count is_submit
    (trace (after (run_events Decoder.online
                     [MessageReceived initial_players_message;
                      MessageReceived nan_position_message; Timeout; Timeout])
              (init_state 1))) = 3%nat.
Proof. cbv zeta. repeat split; reflexivity. Qed.




(** ** Inbound messages *)

Lemma eq_str_exclusive v a b :
  eq_str v a = true -> String.eqb a b = false -> eq_str v b = false.
Proof.
  destruct v; simpl; try discriminate. intros H1 H2.
  apply String.eqb_eq in H1. now subst.
Qed.

Lemma eq_int_not_none v n : eq_int v n = true -> is_none v = false.
Proof. destruct v; simpl; intros; try discriminate; reflexivity. Qed.

Lemma py_get_truthy obj key v :
  py_get obj key JNull = Val v -> is_none v = false -> truthy obj = true.
Proof.
  destruct obj; simpl; try discriminate.
  destruct d; simpl; [|reflexivity].
  intros H; injection H as <-. discriminate.
Qed.

(** C6. A PlayerDisconnected message whose user_id equals the local id is
    ignored: the handler returns without raising, the window is the same
    (position, timer flag, [other_players] and the local item included),
    and nothing is handed to the socket; two diagnostics are printed. *)
Theorem self_disconnect_ignored rt message s data msg_type payload uid :
  json_loads rt message = Some data ->
  py_get data "type" JNull = Val msg_type ->
  eq_str msg_type "PlayerDisconnected" = true ->
  py_get data "payload" JNull = Val payload ->
  py_get payload "user_id" JNull = Val uid ->
  eq_int uid (user_id (win s)) = true ->
  let s' := after (websocket_on_message rt message) s in
  raised (websocket_on_message rt message) s = None /\
  win s' = win s /\
  other_players (win s') = other_players (win s) /\
  my_player_item (win s') = my_player_item (win s) /\
  count is_submit (trace s') = count is_submit (trace s) /\
  trace s' = trace s ++ [Printed ReceivedDisconnected; Printed IgnoringSelfDisconnect].
Proof.
  intros Hd Ht Hs Hp Hu He. cbv zeta.
  pose proof (eq_int_not_none _ _ He) as Hn.
  pose proof (py_get_truthy _ _ _ Hu Hn) as Htr.
  assert (E : websocket_on_message rt message s =
              (Val tt, {| win := win s; sends := sends s;
                          trace := trace s ++ [Printed ReceivedDisconnected;
                                               Printed IgnoringSelfDisconnect] |})).
  { unfold websocket_on_message, on_message_body, remove_player_visual.
    unfold bind, lift, get, emit, ret. rewrite Hd, Ht, Hp.
    rewrite (eq_str_exclusive _ _ "PlayerPosition" Hs eq_refl), Hs, Htr.
    cbn [andb]. rewrite Hu, Hn. cbn [win fst snd]. rewrite He.
    cbn. now rewrite <- app_assoc. }
  unfold after, raised. rewrite E. cbn [fst snd win trace].
  repeat split; try reflexivity.
  unfold count. rewrite filter_app. cbn. now rewrite app_nil_r.
Qed.

Lemma self_disconnect_ignored_witness :
  let s := init_state 1 in
  json_loads Decoder.online self_disconnect_message
    = Some (JObj [("type", JStr "PlayerDisconnected");
                  ("payload", JObj [("user_id", JInt 1)])]) /\
  win (after (websocket_on_message Decoder.online self_disconnect_message) s) = win s.
Proof.
  cbv zeta. split; [reflexivity|].
  exact (proj1 (proj2
           (self_disconnect_ignored Decoder.online self_disconnect_message (init_state 1)
              (JObj [("type", JStr "PlayerDisconnected");
                     ("payload", JObj [("user_id", JInt 1)])])
              (JStr "PlayerDisconnected") (JObj [("user_id", JInt 1)]) (JInt 1)
              eq_refl eq_refl eq_refl eq_refl eq_refl eq_refl))).
Defined.



(** C8, as the code has it. When handling a message raises (the text is
    not JSON, a field is missing, a value is of the wrong kind), the
    handler catches the exception, prints a diagnostic and then shows a
    modal [QMessageBox.critical] dialog; it returns normally and changes
    nothing else. A text that does not decode fails with JSONDecodeError
    and leaves the window as it was. *)
Theorem failure_is_logged_and_shown rt message s e :
  raised (on_message_body rt message) s = Some e ->
  let s1 := after (on_message_body rt message) s in
  let s' := after (websocket_on_message rt message) s in
  raised (websocket_on_message rt message) s = None /\
  win s' = win s1 /\
  (exists d b, trace s' = trace s1 ++ [Printed d; Critical b]) /\
  count is_critical (trace s') = S (count is_critical (trace s1)) /\
  (json_loads rt message = None -> e = JSONDecodeError /\ win s' = win s).
Proof.
  unfold raised, after, websocket_on_message. cbv zeta.
  destruct (on_message_body rt message s) as [[[]|x] s1] eqn:E; simpl; [discriminate|].
  intros [= ->].
  assert (G : forall d b,
            (emit (Printed d) ;; emit (Critical b)) s1 =
            (Val tt, {| win := win s1; sends := sends s1;
                        trace := trace s1 ++ [Printed d; Critical b] |})).
  { intros. unfold bind, emit. cbn. now rewrite <- app_assoc. }
  assert (K : json_loads rt message = None -> e = JSONDecodeError /\ win s1 = win s).
  { intros N. unfold on_message_body, bind, lift in E. rewrite N in E.
    now injection E as <- <-. }
  destruct e; rewrite G; cbn [fst snd win trace]; repeat split; eauto;
    try (rewrite count_app; cbn; lia); try (apply K; assumption);
    try (intros N; destruct (K N) as [? ?]; try discriminate; assumption).
Qed.

Lemma failure_is_logged_and_shown_witness :
  raised (on_message_body Decoder.online not_json_message) (init_state 1)
    = Some JSONDecodeError /\
  raised (websocket_on_message Decoder.online not_json_message) (init_state 1) = None.
Proof.
  split; [reflexivity|].
  exact (proj1 (failure_is_logged_and_shown Decoder.online not_json_message
                  (init_state 1) JSONDecodeError eq_refl)).
Defined.

(** Against C8 as the specification states it: the text [{not json] does
    not decode, and the handler shows the dialog. *)
Lemma decode_error_is_shown :
  json_loads Decoder.online not_json_message = None /\
  trace (after (websocket_on_message Decoder.online not_json_message) (init_state 1)) =
    [Printed JsonDecodeFailed; Critical JsonErrorBox].
Proof. split; reflexivity. Qed.

(** *** What a failed message leaves behind *)

Lemma for_each_raises {A} (body : A -> M unit) l s e s' :
  for_each l body s = (Exn e, s') ->
  exists done bad rest s1,
    l = done ++ bad :: rest /\
    for_each done body s = (Val tt, s1) /\
    body bad s1 = (Exn e, s').
Proof.
  revert s. induction l as [|a l IH]; intros s H; [discriminate|].
  cbn [for_each] in H. unfold bind in H.
  destruct (body a s) as [[[]|x] s1] eqn:E.
  - destruct (IH s1 H) as (done & bad & rest & s2 & -> & F & B).
    exists (a :: done), bad, rest, s2. repeat split; auto.
    cbn [for_each]. unfold bind. now rewrite E.
  - injection H as -> ->. exists [], a, l, s. repeat split; auto.
Qed.

Lemma show_position_fails s e s' :
  show_position s = (Exn e, s') ->
  s' = s /\ (py_int (player_x (win s)) = Exn e \/ py_int (player_y (win s)) = Exn e).
Proof.
  unfold show_position. rewrite bind_get, bind_lift.
  destruct (py_int (player_x (win s))) as [lx|ex] eqn:X.
  - rewrite bind_lift.
    destruct (py_int (player_y (win s))) as [ly|ey] eqn:Y; [discriminate|].
    intros [= <- <-]. auto.
  - intros [= <- <-]. auto.
Qed.

Lemma update_local uid x y z s :
  eq_int uid (user_id (win s)) = true ->
  update_player_visual uid x y z s =
    show_position {| win := set_my_player_item (drawn x y) (win s);
                     sends := sends s; trace := trace s |}.
Proof.
  intros H. unfold update_player_visual. rewrite bind_get, H. reflexivity.
Qed.

Lemma update_other_fails uid x y z s e s' :
  eq_int uid (user_id (win s)) = false ->
  update_player_visual uid x y z s = (Exn e, s') -> s' = s.
Proof.
  intros H. unfold update_player_visual.
  rewrite bind_get, H, bind_lift.
  destruct (contains uid (other_players (win s))) as [[]|]; cbn; try discriminate.
  now intros [= _ <-].
Qed.

Lemma remove_fails uid s e s' :
  remove_player_visual uid s = (Exn e, s') -> win s' = win s.
Proof.
  unfold remove_player_visual. rewrite bind_get.
  destruct (eq_int uid (user_id (win s))); [cbn; discriminate|].
  rewrite bind_lift.
  destruct (contains uid (other_players (win s))) as [[]|]; cbn; try discriminate.
  now intros [= _ <-].
Qed.

(** A payload that is a dict or a string is run over key by key or
    character by character, and the first of them has no [get]. *)
Lemma first_entry_not_a_dict rt v l s :
  (forall k d, py_get v k d = Exn AttributeError) ->
  for_each (v :: l) (initial_player rt) s = (Exn AttributeError, s).
Proof.
  intros H. cbn [for_each]. unfold bind at 1, initial_player.
  rewrite bind_lift, H. reflexivity.
Qed.

(** One [lift] in the body: either it yields a value, or the body raises
    there and the message is discarded. *)
Ltac lift_in E a H :=
  rewrite bind_lift in E;
  match type of E with
  | match ?r with Val _ => _ | Exn _ => _ end = _ =>
      destruct r as [a|] eqn:H;
      [| injection E as <- <-; left; reflexivity ]
  end.

(** C3, as the code has it. When handling a message raises, the window is
    left exactly as it was before the message, with two exceptions. A
    roster (InitialPlayers with a list as payload) is applied entry by
    entry: the entries before the one that raises stay applied, and the
    window is the one that entry leaves. A PlayerPosition of the local
    player whose x or y has no integer part (NaN, infinity) has stored the
    position and drawn the item when showing the position raises. *)
Theorem failed_message_effect rt message s e :
  raised (on_message_body rt message) s = Some e ->
  let s' := after (on_message_body rt message) s in
  discarded s s' \/
  roster_cut_short rt message e s s' \/
  own_position_not_shown rt message e s s'.
Proof.
  unfold raised, after. cbv zeta.
  destruct (on_message_body rt message s) as [[[]|x] s'] eqn:E; cbn [fst snd];
    [discriminate|]. intros [= ->].
  unfold on_message_body in E.
  rewrite bind_lift in E.
  destruct (json_loads rt message) as [data|] eqn:Hd;
    [| injection E as <- <-; left; reflexivity ].
  lift_in E msg_type Ht.
  lift_in E payload Hp.
  destruct (eq_str msg_type "PlayerPosition" && truthy payload) eqn:B1.
  { apply andb_true_iff in B1 as [T1 T2].
    lift_in E uid Hu.
    destruct (is_none uid); [discriminate E|].
    lift_in E jx Hjx. lift_in E x Hx.
    lift_in E jy Hjy. lift_in E y Hy.
    lift_in E jz Hjz. lift_in E z Hz.
    rewrite bind_get in E.
    destruct (eq_int uid (user_id (win s))) eqn:He.
    - rewrite bind_modify in E. rewrite update_local in E by exact He.
      apply show_position_fails in E as [-> Hi].
      right; right. exists data, msg_type, payload, uid, jx, jy, jz, x, y, z.
      repeat split; auto.
    - rewrite bind_ret in E. apply update_other_fails in E; [|exact He].
      left. now subst. }
  destruct (eq_str msg_type "PlayerDisconnected" && truthy payload) eqn:B2.
  { lift_in E uid Hu.
    destruct (is_none uid); [discriminate E|].
    rewrite bind_emit in E. apply remove_fails in E. left. exact E. }
  destruct (eq_str msg_type "InitialPlayers") eqn:B3; [|discriminate E].
  rewrite bind_emit in E.
  destruct (truthy payload) eqn:T; [|discriminate E].
  rewrite bind_lift in E.
  destruct payload as [| | | |t|l|d]; cbn [py_iter] in E;
    try (injection E as <- <-; left; reflexivity).
  - destruct t as [|c t]; [discriminate T|].
    cbn [list_ascii_of_string map] in E.
    rewrite first_entry_not_a_dict in E by reflexivity.
    injection E as <- <-. left. reflexivity.
  - right; left.
    destruct (for_each_raises _ _ _ _ _ E) as (done & bad & rest & s1 & L & F & B).
    exists data, msg_type, l, done, bad, rest, s1. repeat split; auto.
  - destruct d as [|[k v] d]; [discriminate T|].
    cbn [map fst] in E.
    rewrite first_entry_not_a_dict in E by reflexivity.
    injection E as <- <-. left. reflexivity.
Qed.

Lemma failed_message_effect_witness :
  let s := init_state 1 in
  let s' := after (on_message_body Decoder.online broken_roster_message) s in
  raised (on_message_body Decoder.online broken_roster_message) s = Some TypeError /\
  (discarded s s' \/
   roster_cut_short Decoder.online broken_roster_message TypeError s s' \/
   own_position_not_shown Decoder.online broken_roster_message TypeError s s').
Proof.
  cbv zeta. split; [reflexivity|].
  exact (failed_message_effect Decoder.online broken_roster_message (init_state 1)
           TypeError eq_refl).
Defined.

(** Against C3 as the specification states it: the second entry of
    [broken_roster_message] has no x, [float(None)] raises TypeError, and
    the first entry has already moved the local player and started the
    timer. *)
Lemma roster_is_not_atomic :
  let s := init_state 1 in
  let s' := after (on_message_body Decoder.online broken_roster_message) s in
  raised (on_message_body Decoder.online broken_roster_message) s = Some TypeError /\
  _position_timer_started (win s) = false /\
  _position_timer_started (win s') = true /\
  player_x (win s) = PyFloat.of_Z 0 /\
  player_x (win s') = PyFloat.of_Z 2.
Proof. cbv zeta. repeat split; reflexivity. Qed.

(** ** Starting the timer *)

Lemma steady_refl s : steady s s.
Proof. split; lia. Qed.

Lemma steady_trans s1 s2 s3 : steady s1 s2 -> steady s2 s3 -> steady s1 s3.
Proof. unfold steady. intros [? ?] [? ?]. split; lia. Qed.

Lemma steady_bind {A B} (c : M A) (k : A -> M B) s :
  steady s (after c s) ->
  (forall a, fst (c s) = Val a -> steady (after c s) (after (k a) (after c s))) ->
  steady s (after (bind c k) s).
Proof.
  intros H1 H2. rewrite after_bind.
  destruct (fst (c s)) eqn:E; [|exact H1].
  eapply steady_trans; [exact H1 | now apply H2].
Qed.

Lemma steady_lift {A B} (r : res A) (k : A -> M B) s :
  (forall a, r = Val a -> steady s (after (k a) s)) ->
  steady s (after (x <- lift r ;; k x) s).
Proof.
  intros H. unfold after. rewrite bind_lift. destruct r; [now apply H|].
  apply steady_refl.
Qed.

Lemma keeps_bind {A B} (c : M A) (k : A -> M B) :
  keeps c -> (forall a, keeps (k a)) -> keeps (bind c k).
Proof. intros H1 H2 s. apply steady_bind; [apply H1 | intros; apply H2]. Qed.

Lemma keeps_ret {A} (a : A) : keeps (ret a).
Proof. intros s. apply steady_refl. Qed.

Lemma keeps_lift {A} (r : res A) : keeps (lift r).
Proof. intros s. apply steady_refl. Qed.

Lemma keeps_get : keeps get.
Proof. intros s. apply steady_refl. Qed.

Lemma keeps_emit e : is_timer_start e = false -> keeps (emit e).
Proof.
  intros H s. unfold steady, starts, pending, after, emit. cbn [snd fst win trace].
  rewrite count_app. unfold count at 2. cbn [filter]. rewrite H. cbn [List.length]. lia.
Qed.

Lemma keeps_modify f :
  (forall w, _position_timer_started (f w) = _position_timer_started w) ->
  keeps (modify f).
Proof.
  intros H s. unfold steady, starts, pending, after, modify. cbn [snd fst win trace].
  rewrite H. lia.
Qed.

Lemma keeps_for_each {A} (body : A -> M unit) l :
  (forall a, keeps (body a)) -> keeps (for_each l body).
Proof.
  intros H. induction l as [|a l IH]; cbn [for_each].
  - apply keeps_ret.
  - apply keeps_bind; [apply H | intros _; exact IH].
Qed.

Create HintDb keeps.

(** Goes through a computation that neither starts the timer nor touches
    the flag, one statement at a time. *)
Ltac keeps_tac :=
  repeat match goal with
    | |- keeps (bind _ _) => apply keeps_bind; [| intros ?]
    | |- keeps (ret _) => apply keeps_ret
    | |- keeps (lift _) => apply keeps_lift
    | |- keeps get => apply keeps_get
    | |- keeps (emit _) => apply keeps_emit; reflexivity
    | |- keeps (modify _) => apply keeps_modify; intros; reflexivity
    | |- keeps (if ?b then _ else _) => destruct b
    | |- keeps (match ?x with _ => _ end) => destruct x
    end;
  auto with keeps.

Lemma keeps_show_position : keeps show_position.
Proof. unfold show_position. keeps_tac. Qed.
#[local] Hint Resolve keeps_show_position : keeps.

Lemma keeps_update uid x y z : keeps (update_player_visual uid x y z).
Proof. unfold update_player_visual. keeps_tac. Qed.
#[local] Hint Resolve keeps_update : keeps.

Lemma keeps_remove uid : keeps (remove_player_visual uid).
Proof. unfold remove_player_visual. keeps_tac. Qed.
#[local] Hint Resolve keeps_remove : keeps.

Lemma keeps_open : keeps handle_websocket_open.
Proof. unfold handle_websocket_open. keeps_tac. Qed.
#[local] Hint Resolve keeps_open : keeps.

Section Live.

Variable rt : Runtime.

(** No send finds the connection closed. *)
Hypothesis live : forall n, reports_closed (link_at rt n) = false.

Lemma keeps_send_message f : keeps (send_message rt f).
Proof.
  unfold send_message. apply keeps_bind; [keeps_tac|intros _].
  intros s. apply steady_bind;
    [unfold steady, starts, pending, after; cbn [fst snd win trace]; lia|].
  intros l E. cbn in E.
  injection E as <-. specialize (live (sends s)).
  destruct (link_at rt (sends s)); try discriminate live.
  all: match goal with |- steady ?a (after ?c ?a) => generalize a; change (keeps c) end;
    keeps_tac.
Qed.

Lemma keeps_send_current_position : keeps (send_current_position rt).
Proof. unfold send_current_position. keeps_tac. all: apply keeps_send_message. Qed.
Hint Resolve keeps_send_current_position : keeps.

Lemma keeps_keyPressEvent key : keeps (keyPressEvent rt key).
Proof.
  unfold keyPressEvent. apply keeps_bind; [apply keeps_get|intros w].
  destruct (requested key w) as [[nx ny] moved].
  keeps_tac.
Qed.

(** One entry of a roster starts the timer only if it was not started. *)
Lemma keeps_initial_player player_data : keeps (initial_player rt player_data).
Proof.
  intros s. unfold initial_player.
  apply steady_lift. intros uid _.
  destruct (is_none uid);
    [generalize s; change (keeps (emit (Printed MissingUserId))); keeps_tac|].
  apply steady_lift. intros jx _. apply steady_lift. intros x _.
  apply steady_lift. intros jy _. apply steady_lift. intros y _.
  apply steady_lift. intros jz _. apply steady_lift. intros z _.
  unfold after. rewrite bind_get. fold (after (A := unit)).
  apply steady_bind; [|intros _ _; apply keeps_update].
  destruct (eq_int uid (user_id (win s))); [|apply steady_refl].
  unfold after. rewrite bind_modify, bind_emit.
  destruct (_position_timer_started (win s)) eqn:F; cbn [negb].
  - unfold steady, starts, pending.
    cbn [ret fst snd win trace set_position _position_timer_started].
    rewrite F, count_app. cbn. lia.
  - rewrite bind_emit, bind_modify, bind_emit.
    match goal with |- steady _ (snd (send_current_position rt ?X)) =>
      apply (steady_trans s X); [|apply keeps_send_current_position] end.
    unfold steady, starts, pending.
    cbn [fst snd win trace set_position set_timer _position_timer_started].
    rewrite F, !count_app. cbn. lia.
Qed.

Lemma keeps_on_message_body message : keeps (on_message_body rt message).
Proof.
  unfold on_message_body. keeps_tac.
  apply keeps_for_each. intros. apply keeps_initial_player.
Qed.

Lemma keeps_websocket_on_message message : keeps (websocket_on_message rt message).
Proof.
  intros s. unfold after, websocket_on_message.
  pose proof (keeps_on_message_body message s) as H. unfold after in H.
  destruct (on_message_body rt message s) as [[[]|e] s1]; cbn [snd] in *; [exact H|].
  eapply steady_trans; [exact H|].
  destruct e;
    match goal with |- steady ?a (snd (?c ?a)) =>
      generalize a; change (keeps c) end; keeps_tac.
Qed.

Lemma keeps_dispatch e : is_drop e = false -> keeps (dispatch rt e).
Proof.
  destruct e; cbn [is_drop dispatch]; intros H; try discriminate.
  - apply keeps_keyPressEvent.
  - keeps_tac.
  - apply keeps_websocket_on_message.
  - apply keeps_open.
Qed.

Lemma keeps_run_events es :
  existsb is_drop es = false -> keeps (run_events rt es).
Proof.
  unfold run_events. induction es as [|e es IH]; cbn [for_each existsb]; intros H.
  - apply keeps_ret.
  - apply orb_false_elim in H as [H1 H2].
    apply keeps_bind; [now apply keeps_dispatch | intros _; now apply IH].
Qed.

End Live.

(** No handler lets an exception out: every notification is handled. *)
Lemma websocket_on_message_returns rt message s :
  raised (websocket_on_message rt message) s = None.
Proof.
  unfold raised, websocket_on_message.
  destruct (on_message_body rt message s) as [[[]|e] s1]; [reflexivity|].
  destruct e; reflexivity.
Qed.

Lemma handle_websocket_close_returns s : raised handle_websocket_close s = None.
Proof.
  unfold raised, handle_websocket_close, bind, get, emit, modify, ret.
  cbn [fst snd win]. destruct (_position_timer_started (win s)); reflexivity.
Qed.

Lemma keyPressEvent_returns rt key s : raised (keyPressEvent rt key) s = None.
Proof.
  destruct (is_move_key key) eqn:Hk.
  - exact (proj1 (key_press_moves rt key s Hk)).
  - unfold raised, keyPressEvent. rewrite bind_get.
    now rewrite (not_move_key key (win s) Hk).
Qed.

Lemma dispatch_returns rt e s : raised (dispatch rt e) s = None.
Proof.
  destruct e; cbn [dispatch].
  - apply keyPressEvent_returns.
  - unfold raised. rewrite bind_get. destruct (position_send_timer (win s)).
    + exact (proj1 (send_current_position_keeps rt s)).
    + reflexivity.
  - apply websocket_on_message_returns.
  - unfold handle_websocket_error, raised. rewrite bind_emit.
    apply handle_websocket_close_returns.
  - apply handle_websocket_close_returns.
  - reflexivity.
Qed.

Lemma run_events_returns rt es s : raised (run_events rt es) s = None.
Proof.
  unfold run_events. revert s. induction es as [|e es IH]; intros s; [reflexivity|].
  cbn [for_each]. unfold raised, bind.
  pose proof (dispatch_returns rt e s) as D. unfold raised in D.
  destruct (dispatch rt e s) as [[[]|x] s1]; [|discriminate D].
  apply IH.
Qed.

(** C2, as the code has it. While the window handles no closed or error
    notification and no send finds the connection closed, the timer is
    started at most once, whatever messages, key presses, timeouts and
    opened notifications come, and all of them are handled; once it is
    started (the flag is true) nothing starts it again and the flag stays
    true. *)
Theorem timer_starts_once_per_connection rt es s :
  (forall n, reports_closed (link_at rt n) = false) ->
  existsb is_drop es = false ->
  let s' := after (run_events rt es) s in
  raised (run_events rt es) s = None /\
  (starts s' <= S (starts s))%nat /\
  (_position_timer_started (win s) = true ->
   starts s' = starts s /\ _position_timer_started (win s') = true).
Proof.
  intros L D. cbv zeta.
  destruct (keeps_run_events rt L es D s) as [H1 H2].
  unfold pending in H1. split; [apply run_events_returns|]. split.
  - destruct (_position_timer_started (win s)),
      (_position_timer_started (win (after (run_events rt es) s))); lia.
  - intros F. rewrite F in H1.
    destruct (_position_timer_started (win (after (run_events rt es) s)));
      split; auto; lia.
Qed.

(** The roster arrives twice, with a key press and a timeout in between. *)
Lemma timer_starts_once_per_connection_witness :
  let es := [MessageReceived initial_players_message; KeyPress Key_D; Timeout;
             MessageReceived initial_players_message] in
  (forall n, reports_closed (link_at Decoder.online n) = false) /\
  existsb is_drop es = false /\
  (starts (after (run_events Decoder.online es) (init_state 1))
   <= S (starts (init_state 1)))%nat.
Proof.
  cbv zeta. split; [intros n; reflexivity|]. split; [reflexivity|].
  exact (proj1 (proj2 (timer_starts_once_per_connection Decoder.online
                  [MessageReceived initial_players_message; KeyPress Key_D; Timeout;
                   MessageReceived initial_players_message]
                  (init_state 1) (fun n => eq_refl) eq_refl))).
Defined.

(** Against C2 as the specification states it: the roster starts the timer,
    a closed notification stops it and clears the flag, and the same roster
    starts it a second time in the same window. *)
Lemma timer_restarts_after_close :
  let es := [MessageReceived initial_players_message; Closed;
             MessageReceived initial_players_message] in
  filter is_timer_start (trace (after (run_events Decoder.online es) (init_state 1)))
    = [TimerStart 100; TimerStart 100].
Proof. reflexivity. Qed.

(** ** The worker thread *)

Module TransportFacts.
Import Transport.

(** Without [stop] and [on_close], [run_forever] leaves the thread as it
    found it, and what it emits does not depend on the thread. *)
Lemma run_forever_quiet hs t :
  existsb is_stop hs = false -> existsb is_close hs = false ->
  run_forever hs t = (t, snd (run_forever hs init)).
Proof.
  revert t. induction hs as [|h hs IH]; intros t Hs Hc; [reflexivity|].
  cbn in Hs, Hc. apply orb_false_elim in Hs as [Hs1 Hs2].
  apply orb_false_elim in Hc as [Hc1 Hc2].
  cbn [run_forever].
  destruct h; try discriminate; cbn;
    rewrite (IH t Hs2 Hc2), (IH init Hs2 Hc2); reflexivity.
Qed.

(** Nothing in [run_forever] sets [_running] back to true. *)
Lemma run_forever_stopped hs t :
  _running t = false -> _running (fst (run_forever hs t)) = false.
Proof.
  revert t. induction hs as [|h hs IH]; intros t H; [exact H|].
  cbn [run_forever].
  destruct (happen h t) as [t1 a1] eqn:E1.
  destruct (run_forever hs t1) as [t2 a2] eqn:E2. cbn.
  assert (H1 : _running t1 = false).
  { destruct h; cbn in E1; injection E1 as <- _; auto. }
  specialize (IH t1 H1). now rewrite E2 in IH.
Qed.


Lemma tally_app p (a b : list action) : tally p (a ++ b) = (tally p a + tally p b)%nat.
Proof. unfold tally. now rewrite filter_app, length_app. Qed.

Lemma tally_cons p a (l : list action) :
  tally p (a :: l) = ((if p a then 1 else 0) + tally p l)%nat.
Proof. unfold tally. cbn. destruct (p a); reflexivity. Qed.

Lemma run_forever_no_attempt hs t :
  tally is_attempt (snd (run_forever hs t)) = 0%nat.
Proof.
  revert t. induction hs as [|h hs IH]; intros t; [reflexivity|].
  cbn [run_forever].
  destruct (happen h t) as [u b] eqn:E1.
  specialize (IH u). destruct (run_forever hs u) as [u' b'].
  cbn [fst snd] in *. rewrite tally_app, IH.
  destruct h; cbn in E1; injection E1 as <- <-; try reflexivity.
  destruct (ws t); reflexivity.
Qed.

Lemma run_loop_ended atts t :
  _running t = false -> run_loop atts t = (t, [], true).
Proof. intros H. destruct atts; cbn; now rewrite H. Qed.






End TransportFacts.

(** ** The window as a transition system *)

Lemma reaches_refl s : reaches s s.
Proof. apply rt_refl. Qed.

Lemma reaches_trans s1 s2 s3 : reaches s1 s2 -> reaches s2 s3 -> reaches s1 s3.
Proof. apply rt_trans. Qed.

Lemma reaches_step s1 s2 : step s1 s2 -> reaches s1 s2.
Proof. apply rt_step. Qed.

Lemma moves_bind {A B} (c : M A) (k : A -> M B) :
  moves c -> (forall a, moves (k a)) -> moves (bind c k).
Proof.
  intros H1 H2 s. rewrite after_bind.
  destruct (fst (c s)); [|apply H1].
  eapply reaches_trans; [apply H1 | apply H2].
Qed.

Lemma moves_ret {A} (a : A) : moves (ret a).
Proof. intros s. apply reaches_refl. Qed.

Lemma moves_lift {A} (r : res A) : moves (lift r).
Proof. intros s. apply reaches_refl. Qed.

Lemma moves_get : moves get.
Proof. intros s. apply reaches_refl. Qed.

Lemma moves_emit e : is_note e = true -> moves (emit e).
Proof. intros H s. apply reaches_step. now apply step_note. Qed.

Lemma moves_modify f : (forall w, same_core w (f w)) -> moves (modify f).
Proof. intros H s. apply reaches_step. apply step_local. apply H. Qed.

Lemma moves_for_each {A} (body : A -> M unit) l :
  (forall a, moves (body a)) -> moves (for_each l body).
Proof.
  intros H. induction l as [|a l IH]; cbn [for_each].
  - apply moves_ret.
  - apply moves_bind; [apply H | intros _; exact IH].
Qed.

Create HintDb moves.

Ltac moves_tac :=
  repeat match goal with
    | |- moves (bind _ _) => apply moves_bind; [| intros ?]
    | |- moves (ret _) => apply moves_ret
    | |- moves (lift _) => apply moves_lift
    | |- moves get => apply moves_get
    | |- moves (emit _) => apply moves_emit; reflexivity
    | |- moves (modify _) => apply moves_modify; intros; repeat split; reflexivity
    | |- moves (if ?b then _ else _) => destruct b
    | |- moves (match ?x with _ => _ end) => destruct x
    end;
  auto with moves.

Lemma moves_show_position : moves show_position.
Proof. unfold show_position. moves_tac. Qed.
#[local] Hint Resolve moves_show_position : moves.

Lemma moves_open : moves handle_websocket_open.
Proof. unfold handle_websocket_open. moves_tac. Qed.
#[local] Hint Resolve moves_open : moves.

Ltac run_all :=
  unfold after, bind, emit, modify, get, ret, lift; cbn [fst snd win sends trace].

Ltac one_step t :=
  eapply reaches_trans; [apply reaches_step, t|]; cbn [win sends trace].
Ltac printed :=
  eapply reaches_trans; [eapply reaches_step; eapply (step_note _ (Printed _) eq_refl)|];
  cbn [win sends trace].
Ltac sent :=
  eapply reaches_trans; [eapply reaches_step; eapply (step_note _ (Sent _) eq_refl)|];
  cbn [win sends trace].
Ltac last_local :=
  apply reaches_step;
  match goal with |- step ?a _ => apply (step_local a) end;
  repeat split; reflexivity.

Lemma moves_close : moves handle_websocket_close.
Proof.
  intros s. unfold handle_websocket_close. run_all.
  destruct (_position_timer_started (win s)) eqn:F; cbn [fst snd win sends trace].
  - printed. one_step step_timer_stop; [exact F|]. last_local.
  - printed. last_local.
Qed.
#[local] Hint Resolve moves_close : moves.

Lemma moves_error error_message : moves (handle_websocket_error error_message).
Proof. unfold handle_websocket_error. moves_tac. Qed.
#[local] Hint Resolve moves_error : moves.

Lemma moves_send_current_position rt : moves (send_current_position rt).
Proof.
  intros s. unfold send_current_position, send_message, handle_websocket_close. run_all.
  fold (position_differs (win s)).
  destruct (position_differs (win s)) eqn:D; cbn [fst snd]; [|apply reaches_refl].
  one_step step_send; [exact D|].
  destruct (link_at rt (sends s)); cbn [fst snd win sends trace].
  - printed. last_local.
  - sent. printed. last_local.
  - printed. printed.
    destruct (_position_timer_started (win s)) eqn:F; cbn [fst snd win sends trace].
    + one_step step_timer_stop; [exact F|]. last_local.
    + last_local.
  - printed. last_local.
Qed.
#[local] Hint Resolve moves_send_current_position : moves.

Lemma moves_update uid x y z : moves (update_player_visual uid x y z).
Proof.
  intros s. unfold after, update_player_visual. rewrite bind_get.
  destruct (eq_int uid (user_id (win s))) eqn:E.
  - rewrite bind_modify.
    eapply reaches_trans; [|apply moves_show_position].
    last_local.
  - rewrite bind_lift.
    destruct (contains uid (other_players (win s))) as [known|] eqn:C;
      [|apply reaches_refl].
    apply reaches_step.
    destruct known; unfold modify; cbn [snd];
      apply (step_upsert s uid _ _ E C).
Qed.
#[local] Hint Resolve moves_update : moves.

Lemma moves_remove uid : moves (remove_player_visual uid).
Proof.
  intros s. unfold after, remove_player_visual. rewrite bind_get.
  destruct (eq_int uid (user_id (win s))) eqn:E.
  - apply reaches_step. now apply step_note.
  - rewrite bind_lift.
    destruct (contains uid (other_players (win s))) as [[]|] eqn:C.
    + run_all. printed.
      eapply reaches_trans; [apply reaches_step; apply step_pop; [exact E|exact C]|].
      cbn [win sends trace]. printed. apply reaches_refl.
    + apply reaches_step. now apply step_note.
    + apply reaches_refl.
Qed.
#[local] Hint Resolve moves_remove : moves.

Lemma moves_keyPressEvent rt key : moves (keyPressEvent rt key).
Proof.
  unfold keyPressEvent. apply moves_bind; [apply moves_get|intros w].
  destruct (requested key w) as [[nx ny] moved].
  moves_tac.
Qed.
#[local] Hint Resolve moves_keyPressEvent : moves.

Lemma reaches_bind {A B} (c : M A) (k : A -> M B) s :
  reaches s (after c s) ->
  (forall a, fst (c s) = Val a -> reaches (after c s) (after (k a) (after c s))) ->
  reaches s (after (bind c k) s).
Proof.
  intros H1 H2. rewrite after_bind.
  destruct (fst (c s)) eqn:E; [|exact H1].
  eapply reaches_trans; [exact H1 | now apply H2].
Qed.

Lemma reaches_lift {A B} (r : res A) (k : A -> M B) s :
  (forall a, r = Val a -> reaches s (after (k a) s)) ->
  reaches s (after (x <- lift r ;; k x) s).
Proof.
  intros H. unfold after. rewrite bind_lift. destruct r; [now apply H|].
  apply reaches_refl.
Qed.

Lemma moves_initial_player rt player_data : moves (initial_player rt player_data).
Proof.
  intros s. unfold initial_player.
  apply reaches_lift. intros uid _.
  destruct (is_none uid); [apply reaches_step; now apply step_note|].
  apply reaches_lift. intros jx _. apply reaches_lift. intros x _.
  apply reaches_lift. intros jy _. apply reaches_lift. intros y _.
  apply reaches_lift. intros jz _. apply reaches_lift. intros z _.
  unfold after. rewrite bind_get. fold (after (A := unit)).
  apply reaches_bind; [|intros _ _; apply moves_update].
  destruct (eq_int uid (user_id (win s))); [|apply reaches_refl].
  unfold after. rewrite bind_modify, bind_emit.
  destruct (_position_timer_started (win s)) eqn:F; cbn [negb].
  - cbn [ret snd].
    one_step (step_local s (set_position x y z (win s))); [repeat split; reflexivity|].
    printed. apply reaches_refl.
  - rewrite bind_emit, bind_modify, bind_emit.
    eapply reaches_trans; [|apply moves_send_current_position].
    one_step (step_local s (set_position x y z (win s))); [repeat split; reflexivity|].
    printed.
    one_step step_timer_start; [exact F|].
    printed. apply reaches_refl.
Qed.
#[local] Hint Resolve moves_initial_player : moves.

Lemma moves_on_message_body rt message : moves (on_message_body rt message).
Proof.
  unfold on_message_body. moves_tac.
  apply moves_for_each. intros. apply moves_initial_player.
Qed.

Lemma moves_websocket_on_message rt message : moves (websocket_on_message rt message).
Proof.
  intros s. unfold after, websocket_on_message.
  pose proof (moves_on_message_body rt message s) as H. unfold after in H.
  destruct (on_message_body rt message s) as [[[]|e] s1]; cbn [snd] in *; [exact H|].
  eapply reaches_trans; [exact H|].
  destruct e;
    match goal with |- reaches ?a (snd (?c ?a)) =>
      generalize a; change (moves c) end; moves_tac.
Qed.
#[local] Hint Resolve moves_websocket_on_message : moves.

Lemma moves_dispatch rt e : moves (dispatch rt e).
Proof. destruct e; cbn [dispatch]; moves_tac. Qed.

Lemma moves_run_events rt es : moves (run_events rt es).
Proof. unfold run_events. apply moves_for_each. intros. apply moves_dispatch. Qed.

(** A property kept by every move is kept by every run. *)
Lemma reaches_invariant (I : St -> Prop) :
  (forall s s', step s s' -> I s -> I s') ->
  forall s s', reaches s s' -> I s -> I s'.
Proof.
  intros H s s' R. induction R; auto.
  intros. eapply H; eauto.
Qed.

Lemma count_snoc p t e :
  count p (t ++ [e]) = (count p t + (if p e then 1 else 0))%nat.
Proof. rewrite count_app. unfold count at 2. cbn. destruct (p e); reflexivity. Qed.

Lemma step_timer_in_step s s' : step s s' -> timer_in_step s -> timer_in_step s'.
Proof.
  unfold timer_in_step.
  destruct 1 as [s e N|s w' C|s uid i known E C|s uid E C|s F|s F|s D];
    cbn [win trace set_other_players set_timer set_last_sent
         position_send_timer _position_timer_started];
    intros [H1 H2]; rewrite ?count_snoc; cbn [is_timer_start is_timer_stop].
  - destruct e; try discriminate N; cbn; (split; [assumption|lia]).
  - destruct C as (_ & _ & C1 & C2 & _). rewrite C1, C2. now split.
  - now split.
  - now split.
  - rewrite F in H2. split; [reflexivity|lia].
  - rewrite F in H2. split; [reflexivity|lia].
  - split; [assumption|lia].
Qed.

Lemma submitted_app t1 t2 : submitted (t1 ++ t2) = submitted t1 ++ submitted t2.
Proof.
  induction t1 as [|e t1 IH]; [reflexivity|].
  destruct e; cbn; now rewrite ?IH.
Qed.

Lemma last_position_snoc p l f :
  last_position p (l ++ [f]) = frame_position f.
Proof. revert p. induction l as [|g l IH]; intros p; cbn; auto. Qed.

Lemma no_repeat_snoc p l f :
  no_repeat p (l ++ [f]) = no_repeat p l && differs (last_position p l) (frame_position f).
Proof.
  revert p. induction l as [|g l IH]; intros p; cbn.
  - now rewrite andb_true_r.
  - now rewrite IH, andb_assoc.
Qed.

Lemma step_frames_in_order u s s' : step s s' -> frames_in_order u s -> frames_in_order u s'.
Proof.
  unfold frames_in_order, last_sent.
  destruct 1 as [s e N|s w' C|s uid i known E C|s uid E C|s F|s F|s D];
    cbn [win trace set_other_players set_timer set_last_sent user_id
         last_sent_x last_sent_y last_sent_z];
    intros (U & A & L & R); rewrite ?submitted_app; cbn [submitted];
    rewrite ?app_nil_r.
  - destruct e; try discriminate N; cbn [submitted]; rewrite ?app_nil_r; auto.
  - destruct C as (C0 & _ & _ & _ & Cx & Cy & Cz). rewrite C0, Cx, Cy, Cz. auto.
  - auto.
  - auto.
  - auto.
  - auto.
  - rewrite forallb_app, last_position_snoc, no_repeat_snoc. cbn.
    rewrite A, R, <- L, U, Z.eqb_refl. cbn.
    repeat split; auto.
Qed.

Lemma SFeqb_sym (a b : float) : SFeqb a b = SFeqb b a.
Proof.
  unfold SFeqb. rewrite (SFcompare_antisym b a).
  destruct (SFcompare b a) as [[]|]; reflexivity.
Qed.

Lemma key_eq_sym a b : key_eq a b = key_eq b a.
Proof.
  destruct a, b; cbn; try reflexivity.
  - destruct b, b0; reflexivity.
  - apply Z.eqb_sym.
  - unfold PyFloat.eqb. rewrite (SFeqb_sym f f0). f_equal. apply andb_comm.
  - apply String.eqb_sym.
Qed.

Lemma key_eq_refl k : hashable k = true -> key_eq k k = true.
Proof.
  destruct k; cbn; try discriminate; intros _; try reflexivity.
  - destruct b; reflexivity.
  - apply Z.eqb_refl.
  - destruct (PyFloat.is_nan f) eqn:N.
    + apply orb_true_r.
    + now rewrite eqb_refl.
  - apply String.eqb_refl.
Qed.

Lemma contains_val uid d known :
  contains uid d = Val known ->
  hashable uid = true /\ known = existsb (fun p => key_eq (fst p) uid) d.
Proof.
  unfold contains. destruct (hashable uid); [|discriminate].
  intros [= <-]. auto.
Qed.

Lemma keys_set_item k i d : keys (set_item k i d) = keys d.
Proof.
  induction d as [|[k' i'] d IH]; [reflexivity|].
  cbn. destruct (key_eq k' k); cbn; [reflexivity|]. unfold keys in IH. now rewrite IH.
Qed.

Lemma forallb_pop (p : json -> bool) k d :
  forallb p (keys d) = true -> forallb p (keys (pop k d)) = true.
Proof.
  unfold keys. induction d as [|[k' i'] d IH]; [auto|].
  cbn. intros H. apply andb_true_iff in H as [H1 H2].
  destruct (key_eq k' k); [exact H2|].
  cbn. rewrite H1. now apply IH.
Qed.

Lemma distinct_pop k d :
  distinct_keys (keys d) = true -> distinct_keys (keys (pop k d)) = true.
Proof.
  unfold keys. induction d as [|[k' i'] d IH]; [auto|].
  cbn. intros H. apply andb_true_iff in H as [H1 H2].
  destruct (key_eq k' k); [exact H2|].
  cbn. rewrite (IH H2), andb_true_r.
  now apply (forallb_pop _ k d).
Qed.

Lemma distinct_snoc l k :
  distinct_keys (l ++ [k])
  = distinct_keys l && forallb (fun k' => negb (key_eq k' k) && negb (key_eq k k')) l.
Proof.
  induction l as [|a l IH]; [reflexivity|].
  cbn. rewrite forallb_app, IH. cbn.
  destruct (key_eq a k), (key_eq k a); cbn;
    rewrite ?andb_false_r, ?andb_true_r; try reflexivity.
  destruct (forallb _ l), (distinct_keys l), (forallb _ l); reflexivity.
Qed.

Lemma not_contained uid d :
  existsb (fun p => key_eq (fst p) uid) d = false ->
  forallb (fun k' => negb (key_eq k' uid) && negb (key_eq uid k')) (keys d) = true.
Proof.
  induction d as [|[k' i'] d IH]; [reflexivity|].
  cbn. intros H. apply orb_false_elim in H as [H1 H2].
  rewrite (key_eq_sym uid k'), H1. cbn. now apply IH.
Qed.

Lemma step_roster_ok u s s' : step s s' -> roster_ok u s -> roster_ok u s'.
Proof.
  unfold roster_ok.
  destruct 1 as [s e N|s w' C|s uid i known E C|s uid E C|s F|s F|s D];
    cbn [win trace set_other_players set_timer set_last_sent user_id other_players];
    intros (U & A & H & R); auto.
  - destruct C as (C0 & C1 & _). rewrite C0, C1. auto.
  - destruct (contains_val _ _ _ C) as [Hh ->].
    destruct (existsb _ _) eqn:X.
    + rewrite keys_set_item. auto.
    + unfold keys in *. rewrite map_app. cbn [map fst].
      rewrite !forallb_app, distinct_snoc. cbn.
      rewrite A, H, R, Hh, <- U, E. cbn.
      repeat split; auto.
      now apply not_contained.
  - repeat split; auto using forallb_pop, distinct_pop.
Qed.

(** *** What holds whatever the window is given to handle *)

Lemma run_keeps (I : St -> Prop) rt es s :
  (forall a b, step a b -> I a -> I b) ->
  I s -> I (after (run_events rt es) s).
Proof.
  intros H. apply (reaches_invariant I H). apply moves_run_events.
Qed.

Lemma In_submitted f t : In (Submit f) t -> In f (submitted t).
Proof.
  induction t as [|e t IH]; [auto|].
  intros [->|H]; [now left|].
  destruct e; cbn; auto.
Qed.

(** X1. Whatever the window is given to handle, the flag
    [_position_timer_started] tells whether [position_send_timer] runs, and
    the timer is started and stopped in turns: it has been started once
    more than stopped when the flag is set, as often otherwise. *)
Theorem timer_follows_flag rt es u :
  let s' := after (run_events rt es) (init_state u) in
  position_send_timer (win s') = _position_timer_started (win s') /\
  count is_timer_start (trace s')
  = (count is_timer_stop (trace s')
     + (if _position_timer_started (win s') then 1 else 0))%nat.
Proof.
  cbv zeta. apply (run_keeps timer_in_step).
  - apply step_timer_in_step.
  - split; reflexivity.
Qed.

(** X2. Every frame the window hands to the socket carries the window's
    own user id, which no event changes. *)
Theorem only_own_frames rt es u :
  let s' := after (run_events rt es) (init_state u) in
  user_id (win s') = u /\
  forall f, In (Submit f) (trace s') -> frame_uid f = u.
Proof.
  cbv zeta.
  destruct (run_keeps (frames_in_order u) rt es (init_state u)
              (step_frames_in_order u)) as (U & A & _).
  { repeat split; reflexivity. }
  split; [exact U|]. intros f H.
  apply In_submitted in H.
  rewrite forallb_forall in A. apply Z.eqb_eq. now apply A.
Qed.

(** X3. [last_sent_x, last_sent_y, last_sent_z] always hold the position of
    the last frame handed to the socket (-1, -1, -1 before the first), and
    no frame repeats the position of the frame before it: every frame
    differs from its predecessor in x, y or z as [!=] tells. *)
Theorem last_sent_is_last_frame rt es u :
  let s' := after (run_events rt es) (init_state u) in
  last_sent (win s') = last_position never_sent (submitted (trace s')) /\
  no_repeat never_sent (submitted (trace s')) = true.
Proof.
  cbv zeta.
  destruct (run_keeps (frames_in_order u) rt es (init_state u)
              (step_frames_in_order u)) as (_ & _ & L & R).
  { repeat split; reflexivity. }
  now split.
Qed.

(** X4. The local player is never among [other_players], and no two keys
    of [other_players] are equal: there is one item per player. *)
Theorem one_item_per_player rt es u :
  let s' := after (run_events rt es) (init_state u) in
  forallb (fun k => negb (eq_int k u)) (keys (other_players (win s'))) = true /\
  distinct_keys (keys (other_players (win s'))) = true.
Proof.
  cbv zeta.
  destruct (run_keeps (roster_ok u) rt es (init_state u) (step_roster_ok u))
    as (_ & A & _ & D).
  { repeat split; reflexivity. }
  now split.
Qed.

(** *** Messages by kind *)

Ltac carried :=
  do 2 eexists; repeat split; reflexivity.

Ltac placed :=
  repeat split; try reflexivity; do 3 eexists; repeat split; reflexivity.

Lemma position_message_runs rt message s payload uid x y z :
  carries rt message "PlayerPosition" payload ->
  places rt payload uid x y z ->
  on_message_body rt message s =
    ((if eq_int uid (user_id (win s)) then modify (set_position x y z) else ret tt) ;;
     update_player_visual uid x y z) s.
Proof.
  intros (data & msg_type & Hd & Ht & Hs & Hp)
         (Hu & Hn & jx & jy & jz & Hjx & Hx & Hjy & Hy & Hjz & Hz).
  pose proof (py_get_truthy _ _ _ Hu Hn) as Htr.
  unfold on_message_body.
  rewrite bind_lift, Hd, bind_lift, Ht, bind_lift, Hp, Hs, Htr. cbn [andb].
  rewrite bind_lift, Hu, Hn.
  rewrite bind_lift, Hjx, bind_lift, Hx, bind_lift, Hjy, bind_lift, Hy,
    bind_lift, Hjz, bind_lift, Hz.
  now rewrite bind_get.
Qed.

Lemma update_other uid x y z s :
  eq_int uid (user_id (win s)) = false ->
  hashable uid = true ->
  update_player_visual uid x y z s =
    (Val tt,
     {| win := set_other_players
                 (if existsb (fun p => key_eq (fst p) uid) (other_players (win s))
                  then set_item uid (drawn x y) (other_players (win s))
                  else other_players (win s) ++ [(uid, drawn x y)]) (win s);
        sends := sends s; trace := trace s |}).
Proof.
  intros E H. unfold update_player_visual. rewrite bind_get, E, bind_lift.
  unfold contains. rewrite H.
  destruct (existsb _ _); reflexivity.
Qed.

Lemma item_of_set_item uid i d :
  existsb (fun p => key_eq (fst p) uid) d = true ->
  item_of uid (set_item uid i d) = Some i.
Proof.
  induction d as [|[k j] d IH]; [discriminate|].
  cbn. destruct (key_eq k uid) eqn:K; cbn; rewrite K; auto.
Qed.

Lemma item_of_absent uid d :
  existsb (fun p => key_eq (fst p) uid) d = false -> item_of uid d = None.
Proof.
  induction d as [|[k j] d IH]; [reflexivity|].
  cbn. destruct (key_eq k uid); [discriminate|]. exact IH.
Qed.

Lemma item_of_snoc uid i d :
  hashable uid = true ->
  existsb (fun p => key_eq (fst p) uid) d = false ->
  item_of uid (d ++ [(uid, i)]) = Some i.
Proof.
  intros H. induction d as [|[k j] d IH]; cbn.
  - now rewrite key_eq_refl.
  - destruct (key_eq k uid); [discriminate|]. exact IH.
Qed.

Lemma others_than_set_item uid i d :
  others_than uid (set_item uid i d) = others_than uid d.
Proof.
  induction d as [|[k j] d IH]; [reflexivity|].
  cbn. destruct (key_eq k uid) eqn:K; cbn; rewrite K; cbn; [reflexivity|].
  unfold others_than in IH. now rewrite IH.
Qed.

Lemma others_than_snoc uid i d :
  hashable uid = true ->
  others_than uid (d ++ [(uid, i)]) = others_than uid d.
Proof.
  intros H. unfold others_than. rewrite filter_app. cbn.
  rewrite (key_eq_refl _ H). cbn. apply app_nil_r.
Qed.

(** X5. A PlayerPosition of another player is the last word on that
    player: the handler returns without a dialog, the player's item is the
    one drawn at the position of the message, whether the player was known
    or not; the items of the other players, the local player, the timer
    and the trace are as before, and a player is added only when the id
    was not known. *)
Theorem other_player_position rt message s payload uid x y z :
  carries rt message "PlayerPosition" payload ->
  places rt payload uid x y z ->
  eq_int uid (user_id (win s)) = false ->
  hashable uid = true ->
  let d := other_players (win s) in
  let s' := after (websocket_on_message rt message) s in
  let d' := other_players (win s') in
  raised (on_message_body rt message) s = None /\
  item_of uid d' = Some (drawn x y) /\
  others_than uid d' = others_than uid d /\
  List.length d' = (List.length d + match item_of uid d with Some _ => 0 | None => 1 end)%nat /\
  win s' = set_other_players d' (win s) /\
  sends s' = sends s /\ trace s' = trace s.
Proof.
  intros C P E H. cbv zeta.
  pose proof (position_message_runs rt message s payload uid x y z C P) as B.
  rewrite E, bind_ret, (update_other uid x y z s E H) in B.
  unfold raised, after, websocket_on_message. rewrite B. cbn [fst snd win sends trace].
  cbn [other_players set_other_players].
  destruct (existsb (fun p => key_eq (fst p) uid) (other_players (win s))) eqn:X.
  - rewrite (item_of_set_item _ _ _ X), others_than_set_item.
    repeat split; try reflexivity.
    assert (K : exists i, item_of uid (other_players (win s)) = Some i).
    { clear -X. induction (other_players (win s)) as [|[k j] d IH]; [discriminate|].
      cbn in *. destruct (key_eq k uid); eauto. }
    destruct K as [i ->].
    clear. induction (other_players (win s)) as [|[k j] d IH]; [reflexivity|].
    cbn. destruct (key_eq k uid); cbn; lia.
  - rewrite (item_of_snoc _ _ _ H X), (others_than_snoc _ _ _ H), (item_of_absent _ _ X).
    repeat split; try reflexivity.
    now rewrite length_app.
Qed.

Lemma other_player_position_witness :
  let s' := after (websocket_on_message Decoder.online other_position_message)
              (init_state 1) in
  item_of (JInt 7) (other_players (win s'))
  = Some (drawn (PyFloat.of_Z 4) (PyFloat.of_Z 5)) /\
  List.length (other_players (win s')) = 1%nat.
Proof.
  cbv zeta.
  assert (C : carries Decoder.online other_position_message "PlayerPosition"
                (JObj [("user_id", JInt 7); ("x", JInt 4); ("y", JInt 5)])) by carried.
  assert (P : places Decoder.online
                (JObj [("user_id", JInt 7); ("x", JInt 4); ("y", JInt 5)]) (JInt 7)
                (PyFloat.of_Z 4) (PyFloat.of_Z 5) (S754_zero false)) by placed.
  destruct (other_player_position Decoder.online other_position_message (init_state 1)
              _ _ _ _ _ C P eq_refl eq_refl) as (_ & I & _ & L & _).
  split; [exact I | exact L].
Defined.

(** X6. A PlayerPosition of the local player whose x and y have an integer
    part moves the local player there as it is, without bringing it into
    the map: position, local item and label follow the message, and
    nothing else happens; no frame is handed to the socket, the record of
    the last position sent and the timer are untouched. *)
Theorem own_position_adopted rt message s payload uid x y z lx ly :
  carries rt message "PlayerPosition" payload ->
  places rt payload uid x y z ->
  eq_int uid (user_id (win s)) = true ->
  py_int x = Val lx -> py_int y = Val ly ->
  let s' := after (websocket_on_message rt message) s in
  raised (on_message_body rt message) s = None /\
  win s' = set_position_label (lx, ly)
             (set_my_player_item (drawn x y) (set_position x y z (win s))) /\
  sends s' = sends s /\ trace s' = trace s.
Proof.
  intros C P E X Y. cbv zeta.
  pose proof (position_message_runs rt message s payload uid x y z C P) as B.
  rewrite E, bind_modify, update_local in B by exact E.
  unfold show_position in B. rewrite bind_get in B. cbn [win player_x player_y
    set_my_player_item set_position] in B.
  rewrite bind_lift, X, bind_lift, Y in B.
  unfold raised, after, websocket_on_message. rewrite B. cbn. repeat split; reflexivity.
Qed.

Lemma own_position_adopted_witness :
  let s' := after (websocket_on_message Decoder.online own_position_message)
              (init_state 1) in
  player_x (win s') = PyFloat.of_Z 50 /\ position_label (win s') = (50, 3) /\
  trace s' = [].
Proof.
  cbv zeta.
  assert (C : carries Decoder.online own_position_message "PlayerPosition"
                (JObj [("user_id", JInt 1); ("x", JInt 50); ("y", JInt 3)])) by carried.
  assert (P : places Decoder.online
                (JObj [("user_id", JInt 1); ("x", JInt 50); ("y", JInt 3)]) (JInt 1)
                (PyFloat.of_Z 50) (PyFloat.of_Z 3) (S754_zero false)) by placed.
  destruct (own_position_adopted Decoder.online own_position_message (init_state 1)
              _ _ _ _ _ 50 3 C P eq_refl eq_refl eq_refl) as (_ & W & _ & T).
  rewrite W, T. repeat split.
Defined.

(** X7. A message that decodes to a dict but has an unknown type, or whose
    payload is missing or empty, is dropped: one diagnostic is printed, no
    dialog is shown, and the window is as before. *)
Theorem message_dropped rt message s data msg_type payload :
  json_loads rt message = Some data ->
  py_get data "type" JNull = Val msg_type ->
  py_get data "payload" JNull = Val payload ->
  truthy payload = false \/
  (eq_str msg_type "PlayerPosition" = false /\
   eq_str msg_type "PlayerDisconnected" = false /\
   eq_str msg_type "InitialPlayers" = false) ->
  let s' := after (websocket_on_message rt message) s in
  raised (on_message_body rt message) s = None /\
  win s' = win s /\ sends s' = sends s /\
  trace s' = trace s ++ [Printed (if eq_str msg_type "InitialPlayers"
                                  then ReceivedInitialPlayers else UnknownMessage)].
Proof.
  intros Hd Ht Hp H. cbv zeta.
  assert (B : on_message_body rt message s =
              (Val tt, {| win := win s; sends := sends s;
                          trace := trace s ++ [Printed (if eq_str msg_type "InitialPlayers"
                                  then ReceivedInitialPlayers else UnknownMessage)] |})).
  { unfold on_message_body. rewrite bind_lift, Hd, bind_lift, Ht, bind_lift, Hp.
    destruct H as [T|(A & B & C)].
    - rewrite T, !andb_false_r.
      destruct (eq_str msg_type "InitialPlayers"); reflexivity.
    - rewrite A, B, C. reflexivity. }
  unfold raised, after, websocket_on_message. rewrite B. cbn. repeat split; reflexivity.
Qed.

Lemma message_dropped_witness :
  let s' := after (websocket_on_message Decoder.online chat_message) (init_state 1) in
  win s' = win (init_state 1) /\ trace s' = [Printed UnknownMessage].
Proof.
  cbv zeta.
  destruct (message_dropped Decoder.online chat_message (init_state 1)
              (JObj [("type", JStr "Chat"); ("payload", JObj [("text", JStr "hi")])])
              (JStr "Chat") (JObj [("text", JStr "hi")])
              eq_refl eq_refl eq_refl
              (or_intror (conj eq_refl (conj eq_refl eq_refl))))
    as (_ & W & _ & T).
  split; [exact W | exact T].
Defined.

(** X8. A PlayerPosition or PlayerDisconnected whose payload has no
    user_id (or a null one) is dropped in the same way, before anything of
    the payload is used. *)
Theorem missing_user_id_dropped rt message s kind payload :
  kind = "PlayerPosition" \/ kind = "PlayerDisconnected" ->
  carries rt message kind payload ->
  truthy payload = true ->
  py_get payload "user_id" JNull = Val JNull ->
  let s' := after (websocket_on_message rt message) s in
  raised (on_message_body rt message) s = None /\
  win s' = win s /\ sends s' = sends s /\
  trace s' = trace s ++ [Printed MissingUserId].
Proof.
  intros K (data & msg_type & Hd & Ht & Hs & Hp) T Hu. cbv zeta.
  assert (B : on_message_body rt message s =
              (Val tt, {| win := win s; sends := sends s;
                          trace := trace s ++ [Printed MissingUserId] |})).
  { unfold on_message_body. rewrite bind_lift, Hd, bind_lift, Ht, bind_lift, Hp, T.
    destruct K as [-> | ->].
    - rewrite Hs. cbn [andb]. rewrite bind_lift, Hu. reflexivity.
    - rewrite (eq_str_exclusive _ _ "PlayerPosition" Hs eq_refl), Hs. cbn [andb].
      rewrite bind_lift, Hu. reflexivity. }
  unfold raised, after, websocket_on_message. rewrite B. cbn. repeat split; reflexivity.
Qed.

Lemma missing_user_id_dropped_witness :
  let s' := after (websocket_on_message Decoder.online anonymous_position_message)
              (init_state 1) in
  win s' = win (init_state 1) /\ trace s' = [Printed MissingUserId].
Proof.
  cbv zeta.
  assert (C : carries Decoder.online anonymous_position_message "PlayerPosition"
                (JObj [("x", JInt 4); ("y", JInt 5)])) by carried.
  destruct (missing_user_id_dropped Decoder.online anonymous_position_message
              (init_state 1) "PlayerPosition" _ (or_introl eq_refl) C eq_refl eq_refl)
    as (_ & W & _ & T).
  split; [exact W | exact T].
Defined.

Lemma eqb_Z_inj f n m :
  PyFloat.eqb_Z f n = true -> PyFloat.eqb_Z f m = true -> n = m.
Proof.
  destruct f as [s|s| |s p e]; cbn; try discriminate.
  - intros H1 H2. apply Z.eqb_eq in H1, H2. congruence.
  - destruct (0 <=? e) eqn:E; intros H1 H2; apply Z.eqb_eq in H1, H2.
    + congruence.
    + apply Z.leb_gt in E.
      rewrite !Z.shiftl_mul_pow2 in * by lia.
      assert (P : 0 < 2 ^ (- e)) by (apply Z.pow_pos_nonneg; lia).
      nia.
Qed.

(** Two keys that are not floats and equal the same value are equal. *)
Lemma key_eq_euclid k1 k2 u :
  is_float_key k1 = false -> is_float_key k2 = false ->
  key_eq k1 u = true -> key_eq k2 u = true -> key_eq k1 k2 = true.
Proof.
  destruct k1, k2; cbn; try discriminate; intros _ _;
    destruct u; cbn; try discriminate; intros H1 H2;
    try (pose proof (eqb_Z_inj _ _ _ H1 H2));
    repeat match goal with
      | H : Bool.eqb _ _ = true |- _ => apply Bool.eqb_prop in H
      | H : (_ =? _) = true |- _ => apply Z.eqb_eq in H
      | H : (_ =? _)%string = true |- _ => apply String.eqb_eq in H
      end;
    subst;
    repeat match goal with b : bool |- _ => destruct b end;
    cbn in *; rewrite ?Z.eqb_refl, ?String.eqb_refl;
    try reflexivity; try congruence; try lia.
Qed.

Lemma item_of_pop uid d :
  distinct_keys (keys d) = true ->
  forallb (fun k => negb (is_float_key k)) (keys d) = true ->
  item_of uid (pop uid d) = None.
Proof.
  unfold keys. induction d as [|[k i] d IH]; [reflexivity|].
  cbn. intros D F.
  apply andb_true_iff in D as [D1 D2]. apply andb_true_iff in F as [F1 F2].
  apply negb_true_iff in F1.
  destruct (key_eq k uid) eqn:K.
  - clear IH. induction d as [|[k' i'] d IH]; [reflexivity|].
    cbn in *.
    apply andb_true_iff in D1 as [D1 D1']. apply andb_true_iff in D2 as [_ D2].
    apply andb_true_iff in F2 as [F2 F2']. apply negb_true_iff in F2.
    destruct (key_eq k' uid) eqn:K'.
    + rewrite (key_eq_euclid k k' uid F1 F2 K K') in D1. discriminate.
    + now apply IH.
  - cbn. rewrite K. now apply IH.
Qed.

Lemma others_than_pop uid d : others_than uid (pop uid d) = others_than uid d.
Proof.
  induction d as [|[k i] d IH]; [reflexivity|].
  cbn. destruct (key_eq k uid) eqn:K; cbn; [reflexivity|].
  rewrite K. cbn. unfold others_than in IH. now rewrite IH.
Qed.

Lemma length_pop uid d :
  (List.length (pop uid d) + match item_of uid d with Some _ => 1 | None => 0 end
   = List.length d)%nat.
Proof.
  induction d as [|[k i] d IH]; [reflexivity|].
  cbn. destruct (key_eq k uid); cbn; lia.
Qed.

Lemma pop_absent uid d :
  existsb (fun p => key_eq (fst p) uid) d = false -> pop uid d = d.
Proof.
  induction d as [|[k i] d IH]; [reflexivity|].
  cbn. destruct (key_eq k uid); [discriminate|]. intros H. now rewrite IH.
Qed.

(** X9. A PlayerDisconnected of another player takes that player's item out
    of [other_players] and leaves the items of the others, the local
    player, the timer and the socket alone; a player that is not known is
    no error. When the keys are distinct and none is a float, the player
    is no longer found afterwards. *)
Theorem disconnect_removes rt message s payload uid :
  carries rt message "PlayerDisconnected" payload ->
  py_get payload "user_id" JNull = Val uid ->
  is_none uid = false ->
  eq_int uid (user_id (win s)) = false ->
  hashable uid = true ->
  let d := other_players (win s) in
  let s' := after (websocket_on_message rt message) s in
  let d' := other_players (win s') in
  raised (on_message_body rt message) s = None /\
  others_than uid d' = others_than uid d /\
  (List.length d' + match item_of uid d with Some _ => 1 | None => 0 end
   = List.length d)%nat /\
  win s' = set_other_players d' (win s) /\
  sends s' = sends s /\
  count is_critical (trace s') = count is_critical (trace s) /\
  (distinct_keys (keys d) = true ->
   forallb (fun k => negb (is_float_key k)) (keys d) = true ->
   item_of uid d' = None).
Proof.
  intros (data & msg_type & Hd & Ht & Hs & Hp) Hu Hn E H. cbv zeta.
  pose proof (py_get_truthy _ _ _ Hu Hn) as Htr.
  assert (B : exists t,
            on_message_body rt message s =
              (Val tt, {| win := set_other_players (pop uid (other_players (win s))) (win s);
                          sends := sends s; trace := trace s ++ t |})
            /\ count is_critical t = 0%nat).
  { unfold on_message_body. rewrite bind_lift, Hd, bind_lift, Ht, bind_lift, Hp.
    rewrite (eq_str_exclusive _ _ "PlayerPosition" Hs eq_refl), Hs, Htr. cbn [andb].
    rewrite bind_lift, Hu, Hn, bind_emit.
    unfold remove_player_visual. rewrite bind_get. cbn [win]. rewrite E, bind_lift.
    unfold contains. rewrite H.
    destruct (existsb _ _) eqn:X.
    - exists [Printed ReceivedDisconnected; Printed RemovingPlayer; Printed RemovedPlayer].
      split; [|reflexivity].
      unfold bind, emit, modify. cbn. now rewrite <- !app_assoc.
    - exists [Printed ReceivedDisconnected; Printed PlayerNotFound].
      split; [|reflexivity].
      unfold emit. cbn. rewrite (pop_absent _ _ X), <- app_assoc. cbn.
      f_equal. f_equal. destruct (win s); reflexivity. }
  destruct B as (t & B & Ct).
  unfold raised, after, websocket_on_message. rewrite B.
  cbn [fst snd win sends trace other_players set_other_players].
  rewrite others_than_pop, length_pop, count_app, Ct.
  repeat split; auto.
  intros D F. now apply item_of_pop.
Qed.

Lemma disconnect_removes_witness :
  let s := after (websocket_on_message Decoder.online other_position_message)
             (init_state 1) in
  let s' := after (websocket_on_message Decoder.online other_disconnect_message) s in
  item_of (JInt 7) (other_players (win s)) = Some (drawn (PyFloat.of_Z 4) (PyFloat.of_Z 5)) /\
  item_of (JInt 7) (other_players (win s')) = None /\
  List.length (other_players (win s')) = 0%nat.
Proof.
  cbv zeta.
  assert (C : carries Decoder.online other_disconnect_message "PlayerDisconnected"
                (JObj [("user_id", JInt 7)])) by carried.
  pose proof (disconnect_removes Decoder.online other_disconnect_message
                (after (websocket_on_message Decoder.online other_position_message)
                   (init_state 1))
                _ (JInt 7) C eq_refl eq_refl eq_refl eq_refl) as H.
  cbv zeta in H. destruct H as (_ & _ & L & _ & _ & _ & N).
  split; [reflexivity|]. split; [exact (N eq_refl eq_refl)|].
  change (item_of (JInt 7) (other_players (win (after
            (websocket_on_message Decoder.online other_position_message) (init_state 1)))))
    with (Some (drawn (PyFloat.of_Z 4) (PyFloat.of_Z 5))) in L.
  change (List.length (other_players (win (after
            (websocket_on_message Decoder.online other_position_message) (init_state 1)))))
    with 1%nat in L.
  cbv iota in L. lia.
Defined.

(** ** Key presses and frames *)

(** X16. A key press that moves the player hands at most one frame to the
    socket: one when the bounded target differs from the last position
    sent, and then that target is recorded as sent; none when it does not,
    as when the player pushes against the edge of the map with nothing
    left to send. *)
Theorem key_press_sends_at_most_once rt key s :
  is_move_key key = true ->
  let s' := after (keyPressEvent rt key) s in
  let target := (clamp x_max (fst (fst (requested key (win s)))),
                 clamp y_max (snd (fst (requested key (win s)))),
                 player_z (win s)) in
  submitted (trace s')
  = submitted (trace s)
    ++ (if differs (last_sent (win s)) target
        then [PlayerPosition (user_id (win s)) (fst (fst target)) (snd (fst target))
                (snd target)]
        else []) /\
  last_sent (win s')
  = (if differs (last_sent (win s)) target then target else last_sent (win s)).
Proof.
  intros Hk. cbv zeta.
  destruct (keyPressEvent_move rt key s Hk) as (lx & ly & E). cbv zeta in E.
  unfold after. rewrite E.
  match goal with |- context [send_current_position rt ?X] => set (s1 := X) end.
  assert (D : position_differs (win s1)
              = differs (last_sent (win s))
                  (clamp x_max (fst (fst (requested key (win s)))),
                   clamp y_max (snd (fst (requested key (win s)))),
                   player_z (win s))) by reflexivity.
  rewrite <- D.
  destruct (position_differs (win s1)) eqn:P.
  - destruct (send_current_position_sends rt s1 P) as (Lx & Ly & Lz & F & _).
    unfold after in *. unfold last_sent. rewrite Lx, Ly, Lz.
    split; [|reflexivity].
    clear -F. revert F.
    generalize (trace (snd (send_current_position rt s1))). intros t F.
    change (trace s) with (trace s1).
    assert (G : forall t, submitted t = map (fun e => match e with Submit f => f
                | _ => PlayerPosition 0 (S754_zero false) (S754_zero false) (S754_zero false) end)
                (filter is_submit t)).
    { clear. induction t as [|e t IH]; [reflexivity|]. destruct e; cbn; now rewrite ?IH. }
    rewrite (G t), F, map_app, <- G. reflexivity.
  - rewrite (send_current_position_idle rt s1 P). cbn [snd fst].
    rewrite app_nil_r. split; reflexivity.
Qed.

Lemma key_press_sends_at_most_once_witness :
  let s := init_state 1 in
  submitted (trace (after (keyPressEvent Decoder.online Key_D) s))
  = [PlayerPosition 1 (PyFloat.of_Z 1) (PyFloat.of_Z 0) (PyFloat.of_Z 0)] /\
  submitted (trace (after (keyPressEvent Decoder.online Key_W)
                      (after (keyPressEvent Decoder.online Key_D) s)))
  = [PlayerPosition 1 (PyFloat.of_Z 1) (PyFloat.of_Z 0) (PyFloat.of_Z 0)].
Proof.
  cbv zeta.
  pose proof (key_press_sends_at_most_once Decoder.online Key_D (init_state 1) eq_refl)
    as H. cbv zeta in H. destruct H as (H & L).
  split; [rewrite H; reflexivity|].
  pose proof (key_press_sends_at_most_once Decoder.online Key_W
                (after (keyPressEvent Decoder.online Key_D) (init_state 1)) eq_refl)
    as G. cbv zeta in G. destruct G as (G & _).
  rewrite G, H, L. reflexivity.
Defined.

Lemma delivered_app a b : delivered (a ++ b) = delivered a ++ delivered b.
Proof.
  induction a as [|x a IH]; [reflexivity|]. destruct x; cbn; now rewrite ?IH.
Qed.

Lemma run_forever_app hs1 hs2 t :
  snd (Transport.run_forever (hs1 ++ hs2) t)
  = snd (Transport.run_forever hs1 t)
    ++ snd (Transport.run_forever hs2 (fst (Transport.run_forever hs1 t))).
Proof.
  revert t. induction hs1 as [|h hs1 IH]; intros t; [reflexivity|].
  cbn [app Transport.run_forever].
  destruct (Transport.happen h t) as [t1 a1].
  specialize (IH t1).
  destruct (Transport.run_forever (hs1 ++ hs2) t1) as [t2 a2].
  destruct (Transport.run_forever hs1 t1) as [t3 a3].
  cbn [fst snd] in *. now rewrite IH, app_assoc.
Qed.

Lemma run_events_app rt es1 es2 s :
  after (run_events rt (es1 ++ es2)) s
  = after (run_events rt es2) (after (run_events rt es1) s).
Proof.
  unfold run_events. revert s. induction es1 as [|e es1 IH]; intros s; [reflexivity|].
  cbn [app for_each]. rewrite !after_bind.
  pose proof (dispatch_returns rt e s) as D. unfold raised in D.
  destruct (fst (dispatch rt e s)); [|discriminate D].
  apply IH.
Qed.

Lemma close_stops_timer s :
  let s' := after handle_websocket_close s in
  _position_timer_started (win s') = false /\
  position_send_timer (win s') = position_send_timer (win s) && negb (_position_timer_started (win s)) /\
  status_bar (win s') = StatusDisconnected.
Proof.
  unfold after, handle_websocket_close, bind, get, emit, modify, ret. cbn [fst snd win].
  destruct (_position_timer_started (win s)) eqn:F; cbn; rewrite ?F, ?andb_true_r, ?andb_false_r;
    auto.
Qed.

(** X17. The signals of the worker reach the window's handlers: when the
    last thing the library calls during a connection is [on_close] or
    [on_error], the window, once it has handled what the worker emitted,
    shows itself disconnected with the flag cleared, and no handler has
    raised on the way. *)
Theorem drop_reaches_the_window rt hs h t s :
  Transport.is_close h = true \/ (exists error, h = Transport.OnError error) ->
  let emitted := snd (Transport.run_forever (hs ++ [h]) t) in
  let s' := after (run_events rt (delivered emitted)) s in
  raised (run_events rt (delivered emitted)) s = None /\
  _position_timer_started (win s') = false /\
  status_bar (win s') = StatusDisconnected /\
  exists before, delivered emitted = before ++ [Closed].
Proof.
  intros H. cbv zeta. rewrite run_forever_app, delivered_app.
  set (es := delivered (snd (Transport.run_forever hs t))).
  set (t1 := fst (Transport.run_forever hs t)).
  assert (L : exists pre, delivered (snd (Transport.run_forever [h] t1)) = pre ++ [Closed]).
  { destruct H as [H|[error ->]].
    - destruct h; try discriminate. exists []. reflexivity.
    - exists [ErrorOccurred error]. reflexivity. }
  destruct L as (pre & ->).
  split; [apply run_events_returns|].
  rewrite app_assoc, run_events_app.
  set (s1 := after (run_events rt (es ++ pre)) s).
  change (after (run_events rt [Closed]) s1) with (after (handle_websocket_close ;; ret tt) s1).
  rewrite after_bind.
  pose proof (handle_websocket_close_returns s1) as R. unfold raised in R.
  destruct (fst (handle_websocket_close s1)); [|discriminate R].
  destruct (close_stops_timer s1) as (F & _ & St).
  unfold after in F, St |- *. cbn [ret snd].
  repeat split; auto. now exists (es ++ pre).
Qed.

Lemma drop_reaches_the_window_witness :
  let emitted := snd (Transport.run_forever
                        [Transport.OnOpen; Transport.OnMessage initial_players_message;
                         Transport.OnError "reset"]
                        Transport.init) in
  delivered emitted
  = [Opened; MessageReceived initial_players_message; ErrorOccurred "reset"; Closed] /\
  _position_timer_started
    (win (after (run_events Decoder.online (delivered emitted)) (init_state 1))) = false.
Proof.
  cbv zeta. split; [reflexivity|].
  exact (proj1 (proj2
    (drop_reaches_the_window Decoder.online
       [Transport.OnOpen; Transport.OnMessage initial_players_message]
       (Transport.OnError "reset") Transport.init (init_state 1)
       (or_intror (ex_intro _ "reset" eq_refl))))).
Defined.

Lemma forwarded_app a b : forwarded (a ++ b) = forwarded a ++ forwarded b.
Proof.
  induction a as [|x a IH]; [reflexivity|].
  destruct x as [|[]| |]; cbn; now rewrite ?IH.
Qed.

Lemma run_forever_forwards hs t :
  forwarded (snd (Transport.run_forever hs t)) = received hs.
Proof.
  revert t. induction hs as [|h hs IH]; intros t; [reflexivity|].
  cbn [Transport.run_forever].
  destruct (Transport.happen h t) as [t1 a1] eqn:H.
  specialize (IH t1). destruct (Transport.run_forever hs t1) as [t2 a2].
  cbn [snd] in *. rewrite forwarded_app, IH.
  destruct h; cbn in H; inversion H; subst; try reflexivity.
  unfold Transport.stop in *. destruct (Transport.ws t); reflexivity.
Qed.

Lemma run_loop_forwards atts t :
  let acts := snd (fst (Transport.run_loop atts t)) in
  forwarded acts
  = flat_map heard (firstn (Transport.tally Transport.is_attempt acts) atts).
Proof.
  cbv zeta. revert t. induction atts as [|a atts IH]; intros t.
  - cbn. destruct (Transport._running t); reflexivity.
  - cbn [Transport.run_loop]. destruct (Transport._running t) eqn:R; [|reflexivity].
    destruct a as [|during raises].
    + specialize (IH t). destruct (Transport.run_loop atts t) as [[t' acts] ended].
      cbn [fst snd] in *. cbn. exact IH.
    + pose proof (run_forever_forwards during {| Transport._running := true;
                                                 Transport.ws := true |}) as F.
      pose proof (TransportFacts.run_forever_no_attempt during
                    {| Transport._running := true; Transport.ws := true |}) as N.
      destruct (Transport.run_forever during _) as [t1 a1]. cbn [snd] in F, N.
      specialize (IH t1). destruct (Transport.run_loop atts t1) as [[t' acts] ended].
      cbn [fst snd] in *.
      rewrite TransportFacts.tally_cons, !TransportFacts.tally_app, N.
      assert (P : Transport.tally Transport.is_attempt
                    (if raises then [Transport.Sleep 5]
                     else if Transport._running t1 then [Transport.Sleep 5] else [])
                  = 0%nat)
        by (destruct raises; [|destruct (Transport._running t1)]; reflexivity).
      rewrite P. cbn [Transport.is_attempt Nat.add firstn flat_map heard].
      change (Transport.Attempt :: ?l) with ([Transport.Attempt] ++ l).
      rewrite !forwarded_app, F, IH.
      assert (Q : forwarded (if raises then [Transport.Sleep 5]
                             else if Transport._running t1 then [Transport.Sleep 5]
                             else []) = [])
        by (destruct raises; [|destruct (Transport._running t1)]; reflexivity).
      rewrite Q. reflexivity.
Qed.

(** X19. The worker forwards to the window every message the library
    hands it, once and in the order received, and nothing else as a
    message: what it emits with [message_received] is what the connections
    of the passes made have received, whether or not [stop] had been
    called by then. *)
Theorem messages_forwarded_in_order atts t :
  let acts := snd (fst (Transport.run atts t)) in
  forwarded acts
  = flat_map heard (firstn (Transport.tally Transport.is_attempt acts) atts) /\
  (forall hs u, forwarded (snd (Transport.run_forever hs u)) = received hs).
Proof.
  split; [apply run_loop_forwards | intros; apply run_forever_forwards].
Qed.

(** X18. What a send does, by the state of the socket. A position that
    differs from the last one sent is handed to the socket and recorded as
    sent in every case; it is transmitted only over a connected socket;
    no failure of the send raises or opens a dialog; and when the socket
    reports the connection closed, the window is shown disconnected and
    a running timer is stopped before the send returns, while any other
    failure leaves the timer and the status bar alone. *)
Theorem send_by_link rt s :
  position_differs (win s) = true ->
  let s' := after (send_current_position rt) s in
  let l := link_at rt (sends s) in
  let f := PlayerPosition (user_id (win s)) (player_x (win s)) (player_y (win s))
             (player_z (win s)) in
  raised (send_current_position rt) s = None /\
  sends s' = S (sends s) /\
  filter is_submit (trace s') = filter is_submit (trace s) ++ [Submit f] /\
  filter is_sent (trace s')
  = filter is_sent (trace s) ++ (if is_connected l then [Sent f] else []) /\
  count is_critical (trace s') = count is_critical (trace s) /\
  win s'
  = set_last_sent (player_x (win s)) (player_y (win s)) (player_z (win s))
      (if reports_closed l
       then set_status_bar StatusDisconnected
              (if _position_timer_started (win s) then set_timer false false (win s)
               else win s)
       else win s).
Proof.
  unfold position_differs, after, raised, send_current_position, send_message,
    handle_websocket_close, count.
  unfold bind, get, modify, emit, ret. cbn [win fst snd sends trace].
  intros ->. cbv zeta.
  destruct (link_at rt (sends s)) eqn:L; cbn [fst snd win sends trace is_connected
    reports_closed];
    try (destruct (_position_timer_started (win s)) eqn:F;
         cbn [fst snd win sends trace]; rewrite ?F);
    rewrite ?filter_app; cbn [filter is_submit is_sent is_critical];
    rewrite ?app_nil_r, <- ?app_assoc; repeat split; reflexivity.
Qed.

Lemma send_by_link_witness :
  let rt := {| json_loads := fun _ => None; float_of_str := fun _ => None;
               link_at := fun _ => ConnectionClosed |} in
  let s := {| win := set_timer true true (init_window 1); sends := 0%nat; trace := [] |} in
  let s' := after (send_current_position rt) s in
  position_send_timer (win s') = false /\
  status_bar (win s') = StatusDisconnected /\
  filter is_sent (trace s') = [] /\
  last_sent_x (win s') = player_x (win s).
Proof.
  cbv zeta.
  destruct (send_by_link
              {| json_loads := fun _ => None; float_of_str := fun _ => None;
                 link_at := fun _ => ConnectionClosed |}
              {| win := set_timer true true (init_window 1); sends := 0%nat; trace := [] |}
              eq_refl) as (_ & _ & _ & T & _ & W).
  rewrite W, T. repeat split.
Defined.

(** ** The loop of the worker *)

Module WorkerFacts.
Import Transport TransportFacts.

Lemma run_forever_stop hs t :
  existsb is_stop hs = true -> _running (fst (run_forever hs t)) = false.
Proof.
  revert t. induction hs as [|h hs IH]; intros t H; [discriminate|].
  cbn [run_forever].
  destruct (happen h t) as [t1 a1] eqn:E1.
  destruct (run_forever hs t1) as [t2 a2] eqn:E2. cbn [fst].
  cbn in H. apply orb_true_iff in H as [H|H].
  - destruct h; try discriminate. cbn in E1. injection E1 as <- _.
    pose proof (run_forever_stopped hs {| _running := false; ws := false |} eq_refl) as K.
    now rewrite E2 in K.
  - specialize (IH t1 H). now rewrite E2 in IH.
Qed.

(** [run_forever] sleeps never, and closes the socket at most once, only
    if the socket is there: the first [stop] forgets it. *)
Lemma run_forever_actions hs t :
  tally is_sleep (snd (run_forever hs t)) = 0%nat /\
  tally is_attempt (snd (run_forever hs t)) = 0%nat /\
  tally is_close_socket (snd (run_forever hs t))
  = (if ws t && existsb is_stop hs then 1 else 0)%nat /\
  (existsb is_stop hs = true -> ws (fst (run_forever hs t)) = false) /\
  (existsb is_stop hs = false -> ws (fst (run_forever hs t)) = ws t).
Proof.
  revert t. induction hs as [|h hs IH]; intros t.
  - cbn. rewrite andb_false_r. repeat split; auto. discriminate.
  - cbn [run_forever].
    destruct (happen h t) as [u b] eqn:E1.
    specialize (IH u). destruct (run_forever hs u) as [u' b'].
    cbn [fst snd] in *. destruct IH as (I1 & I2 & I3 & I4 & I5).
    rewrite !tally_app, I1, I2, I3.
    destruct h; cbn in E1; injection E1 as <- <-; cbn [existsb is_stop orb ws];
      try (repeat split; auto; fail).
    rewrite andb_true_r. cbn [andb] in *.
    assert (W : ws u' = false).
    { destruct (existsb is_stop hs) eqn:X; [now apply I4|now rewrite I5]. }
    destruct (ws t); cbn; repeat split; auto; discriminate.
Qed.

Lemma run_loop_shape atts t :
  let '(t', acts, ended) := run_loop atts t in
  ended = negb (_running t') /\
  forallb sleeps_five acts = true /\
  (tally is_sleep acts <= tally is_attempt acts)%nat /\
  (tally is_attempt acts <= List.length atts)%nat.
Proof.
  revert t. induction atts as [|a atts IH]; intros t.
  - cbn. destruct (_running t) eqn:R; cbn; rewrite ?R; repeat split; auto.
  - cbn [run_loop]. destruct (_running t) eqn:R.
    + destruct a as [|during raises].
      * specialize (IH t). destruct (run_loop atts t) as [[t' acts] ended].
        destruct IH as (E & F & S1 & S2).
        rewrite !tally_cons. cbn. repeat split; auto; lia.
      * pose proof (run_forever_actions during {| _running := true; ws := true |})
          as (A1 & A2 & _).
        destruct (run_forever during _) as [t1 a1]. cbn [fst snd] in *.
        specialize (IH t1). destruct (run_loop atts t1) as [[t' acts] ended].
        destruct IH as (E & F & S1 & S2).
        assert (F1 : forallb sleeps_five a1 = true).
        { clear -A1. induction a1 as [|x a1 IH]; [reflexivity|].
          rewrite tally_cons in A1. destruct x; cbn in *; try discriminate; apply IH; lia. }
        rewrite !tally_cons, !tally_app, A1, A2.
        cbn [is_attempt is_sleep forallb sleeps_five andb]. rewrite !forallb_app, F1, F.
        destruct raises; [|destruct (_running t1)]; cbn; repeat split; auto; lia.
    + cbn. rewrite R. repeat split; auto. lia.
Qed.

(** X10. The loop of [run] has ended exactly when [_running] is false;
    every sleep lasts 5 seconds, there is at most one sleep per pass and
    no pass beyond those the connection gives rise to. *)
Theorem run_sleeps_five_between_passes atts t :
  let r := run atts t in
  snd r = negb (_running (fst (fst r))) /\
  forallb sleeps_five (snd (fst r)) = true /\
  (tally is_sleep (snd (fst r)) <= tally is_attempt (snd (fst r)))%nat /\
  (tally is_attempt (snd (fst r)) <= List.length atts)%nat.
Proof.
  cbv zeta. unfold run.
  pose proof (run_loop_shape atts {| _running := true; ws := ws t |}) as H.
  destruct (run_loop atts _) as [[t' acts] ended]. exact H.
Qed.

Lemma run_loop_stopped atts during raises rest t :
  forallb quiet atts = true ->
  existsb is_stop during = true ->
  _running t = true ->
  let r := run_loop (atts ++ RunForever during raises :: rest) t in
  snd r = true /\
  tally is_attempt (snd (fst r)) = S (List.length atts) /\
  tally is_close_socket (snd (fst r)) = 1%nat /\
  ws (fst (fst r)) = false.
Proof.
  intros Hq Hc. revert t. induction atts as [|a atts IH]; intros t Hr; cbv zeta.
  - cbn [app run_loop]. rewrite Hr.
    pose proof (run_forever_stop during {| _running := true; ws := true |} Hc) as K.
    pose proof (run_forever_actions during {| _running := true; ws := true |})
      as (A1 & A2 & A3 & A4 & _).
    destruct (run_forever during _) as [t1 a1]. cbn [fst snd ws andb] in *.
    rewrite Hc in A3. specialize (A4 Hc).
    rewrite (run_loop_ended rest t1 K), K. cbn [fst snd].
    rewrite !tally_cons, !tally_app, A2, A3. cbn [is_attempt is_close_socket].
    destruct raises; cbn; repeat split; auto.
  - cbn in Hq. apply andb_true_iff in Hq as [Ha Hq]. specialize (IH Hq).
    cbn [app run_loop]. rewrite Hr.
    destruct a as [|d r].
    + specialize (IH t Hr). cbv zeta in IH.
      destruct (run_loop _ t) as [[t' acts] ended]. cbn [fst snd] in *.
      destruct IH as (-> & I1 & I2 & I3).
      rewrite !tally_cons, I1, I2. cbn. repeat split; auto.
    + unfold quiet in Ha. cbn in Ha. apply andb_true_iff in Ha as [H1 H2].
      apply negb_true_iff in H1, H2.
      rewrite (run_forever_quiet d _ H1 H2).
      specialize (IH {| _running := true; ws := true |} eq_refl). cbv zeta in IH.
      pose proof (run_forever_actions d init) as (A1 & A2 & A3 & _).
      rewrite H1, andb_false_r in A3.
      destruct (run_loop _ _) as [[t' acts] ended]. cbn [fst snd] in *.
      destruct IH as (-> & I1 & I2 & I3).
      rewrite !tally_cons, !tally_app, A2, A3, I1, I2. cbn [_running].
      destruct r; cbn; repeat split; auto.
Qed.

(** X11. Once [stop] has been called during a pass, that pass is the last:
    the loop ends, whatever the connection would do next; the socket has
    been closed exactly once and forgotten, however often [stop] is
    called. *)
Theorem stop_ends_the_worker atts during raises rest t :
  forallb quiet atts = true ->
  existsb is_stop during = true ->
  let r := run (atts ++ RunForever during raises :: rest) t in
  snd r = true /\
  tally is_attempt (snd (fst r)) = S (List.length atts) /\
  tally is_close_socket (snd (fst r)) = 1%nat /\
  ws (fst (fst r)) = false.
Proof.
  intros Hq Hs. unfold run. apply run_loop_stopped; auto.
Qed.

Lemma stop_ends_the_worker_witness :
  let r := run (three_failures ++ [RunForever [OnOpen; StopCalled] false;
                                    RunForever [OnOpen] false]) init in
  snd r = true /\
  tally is_attempt (snd (fst r)) = 4%nat /\
  tally is_close_socket (snd (fst r)) = 1%nat.
Proof.
  cbv zeta.
  destruct (stop_ends_the_worker three_failures [OnOpen; StopCalled] false
              [RunForever [OnOpen] false] init eq_refl eq_refl) as (A & B & C & _).
  repeat split; assumption.
Defined.

End WorkerFacts.

(** ** The login dialog *)

Module AuthFacts.
Import Auth.

Lemma or_default_not_empty t d : d <> "" -> or_default t d <> "".
Proof.
  unfold or_default. destruct (String.eqb t "") eqn:E; [auto|].
  intros _ H. subst. discriminate.
Qed.

Lemma append_assoc (a b c : string) :
  String.append (String.append a b) c = String.append a (String.append b c).
Proof. induction a as [|x a IH]; cbn; [reflexivity|now rewrite IH]. Qed.

(** X12. The two URLs of the dialog name the same server: host and port
    are the texts typed, or 127.0.0.1 and 3000 for a field left empty, so
    that neither part is ever empty; with both fields empty they are
    http://127.0.0.1:3000 and ws://127.0.0.1:3000/api/ws. *)
Theorem urls_name_one_server d :
  exists host port,
    host <> "" /\ port <> "" /\
    (server_ip_input d <> "" -> host = server_ip_input d) /\
    (server_port_input d <> "" -> port = server_port_input d) /\
    (server_ip_input d = "" -> host = "127.0.0.1") /\
    (server_port_input d = "" -> port = "3000") /\
    get_base_url d = String.append "http://" (String.append host (String.append ":" port)) /\
    get_websocket_url d
    = String.append "ws://"
        (String.append (String.append host (String.append ":" port)) "/api/ws").
Proof.
  exists (or_default (server_ip_input d) DEFAULT_SERVER_IP),
         (or_default (server_port_input d) DEFAULT_SERVER_PORT).
  split; [apply or_default_not_empty; discriminate|].
  split; [apply or_default_not_empty; discriminate|].
  unfold or_default.
  repeat split.
  - intros H. destruct (String.eqb_spec (server_ip_input d) ""); congruence.
  - intros H. destruct (String.eqb_spec (server_port_input d) ""); congruence.
  - intros ->. reflexivity.
  - intros ->. reflexivity.
  - unfold get_websocket_url, or_default. now rewrite !append_assoc.
Qed.

Ltac in_list :=
  repeat match goal with
    | H : In _ _ |- _ => cbn in H
    | H : _ \/ _ |- _ => destruct H
    | H : False |- _ => destruct H
    | H : @eq act _ _ |- _ => first [discriminate H | injection H as; subst]
    end.

Ltac shape := repeat split; cbn; auto; intros; in_list; repeat split; auto.

(** What one click does. *)
Lemma login_shape web n d :
  let acts := login web n d in
  (times is_post acts <= 1)%nat /\
  (times is_box acts + times is_accept acts = 1)%nat /\
  times is_success acts = times is_accept acts /\
  (forall url l p, In (Post url l p) acts ->
     l = login_input d /\ p = password_input d /\ l <> "" /\ p <> "" /\
     url = String.append (get_base_url d) "/api/login") /\
  (forall uid t base wsurl, In (LoginSuccessful uid t base wsurl) acts ->
     acts = [Post (String.append (get_base_url d) "/api/login") (login_input d)
               (password_input d);
             LoginSuccessful uid t base wsurl; Accept] /\
     base = get_base_url d /\ wsurl = get_websocket_url d).
Proof.
  cbv zeta. unfold login.
  destruct (String.eqb_spec (login_input d) "") as [L|L]; cbn [orb].
  { shape. }
  destruct (String.eqb_spec (password_input d) "") as [P|P]; cbn [orb].
  { shape. }
  destruct (post web n _ _ _) as [| |r].
  1,2: shape.
  destruct (status_code r =? 200).
  2: shape.
  destruct (body r) as [data|].
  2: shape.
  destruct (py_get data "token" JNull) as [token|].
  2: shape.
  destruct (truthy token).
  2: shape.
  destruct (token_user web token) as [[uid t]|].
  2: shape.
  shape.
Qed.

Lemma register_shape web n d :
  let acts := register web n d in
  (times is_post acts <= 1)%nat /\
  times is_box acts = 1%nat /\
  times is_accept acts = 0%nat /\
  times is_success acts = 0%nat /\
  (forall url l p, In (Post url l p) acts ->
     l = login_input d /\ p = password_input d /\ l <> "" /\ p <> "" /\
     url = String.append (get_base_url d) "/api/register").
Proof.
  cbv zeta. unfold register.
  destruct (String.eqb_spec (login_input d) "") as [L|L]; cbn [orb].
  { shape. }
  destruct (String.eqb_spec (password_input d) "") as [P|P]; cbn [orb].
  { shape. }
  destruct (post web n _ _ _) as [| |r]; [| |destruct (status_code r =? 200)];
    shape.
Qed.

(** X13. Each click on the login button ends in exactly one message box
    or in acceptance, never both, after at most one request; it accepts
    exactly when the answer has status 200, its body is a dict with a
    truthy token, and the token yields a user id, and it then hands that
    user id, the token and the two URLs of the dialog to
    [login_successful]. A click on the register button ends in exactly
    one message box and never accepts. *)
Theorem click_outcome web n d :
  (times is_post (login web n d) <= 1)%nat /\
  (times is_box (login web n d) + times is_accept (login web n d) = 1)%nat /\
  (In Accept (login web n d) <->
   exists r data token uid t,
     login_input d <> "" /\ password_input d <> "" /\
     post web n (String.append (get_base_url d) "/api/login")
       (login_input d) (password_input d) = Answer r /\
     status_code r = 200 /\ body r = Some data /\
     py_get data "token" JNull = Val token /\ truthy token = true /\
     token_user web token = Some (uid, t) /\
     login web n d =
       [Post (String.append (get_base_url d) "/api/login") (login_input d)
          (password_input d);
        LoginSuccessful uid t (get_base_url d) (get_websocket_url d); Accept]) /\
  (times is_post (register web n d) <= 1)%nat /\
  times is_box (register web n d) = 1%nat /\
  ~ In Accept (register web n d).
Proof.
  destruct (login_shape web n d) as (L1 & L2 & _).
  destruct (register_shape web n d) as (R1 & R2 & R3 & _).
  split; [exact L1|]. split; [exact L2|].
  split; [|split; [exact R1|split; [exact R2|]]].
  - clear. unfold login. split.
    + destruct (String.eqb_spec (login_input d) "") as [L|L]; cbn [orb];
        [intros; in_list|].
      destruct (String.eqb_spec (password_input d) "") as [P|P]; cbn [orb];
        [intros; in_list|].
      destruct (post web n _ _ _) as [| |r] eqn:E; [intros; in_list..|].
      destruct (status_code r =? 200) eqn:S; [|intros; in_list].
      destruct (body r) as [data|] eqn:B; [|intros; in_list].
      destruct (py_get data "token" JNull) as [token|] eqn:T; [|intros; in_list].
      destruct (truthy token) eqn:Tr; [|intros; in_list].
      destruct (token_user web token) as [[uid t]|] eqn:U; [|intros; in_list].
      intros _. exists r, data, token, uid, t.
      apply Z.eqb_eq in S. repeat split; auto.
    + intros (r & data & token & uid & t & L & P & E & S & B & T & Tr & U & _).
      apply String.eqb_neq in L, P. apply Z.eqb_eq in S.
      rewrite L, P. cbn [orb]. rewrite E, S, B, T, Tr, U. cbn. auto.
  - clear -R3. intros H. unfold times in R3.
    induction (register web n d) as [|a l IH]; [exact H|].
    destruct H as [->|H]; [discriminate R3|].
    apply IH; [|exact H]. cbn in R3. destruct (is_accept a); [discriminate|exact R3].
Qed.

Lemma times_app p (a b : list act) : times p (a ++ b) = (times p a + times p b)%nat.
Proof. unfold times. now rewrite filter_app, length_app. Qed.

Lemma settle_plain acts a :
  times is_success acts = 0%nat -> times is_accept acts = 0%nat ->
  settle acts a =
    {| dialog := dialog a; requests := (requests a + times is_post acts)%nat;
       globals := globals a; result := result a; log := log a |}.
Proof.
  revert a. induction acts as [|x acts IH]; intros a S A.
  - cbn. rewrite Nat.add_0_r. destruct a; reflexivity.
  - destruct x; cbn in S, A; try discriminate; cbn [settle].
    + rewrite IH by assumption. cbn. unfold times. cbn. f_equal. lia.
    + rewrite IH by assumption. reflexivity.
Qed.

Lemma handle_consistent web i a : consistent a -> consistent (handle web i a).
Proof.
  unfold handle. destruct (result a) as [c|] eqn:R; [auto|].
  intros H. unfold consistent in H. rewrite R in H. destruct H as (Q & F & G & S).
  destruct i; unfold consistent; cbv zeta;
    cbn [edit log requests result globals dialog]; rewrite ?R; auto.
  - (* login *)
    destruct (login_shape web (requests a) (dialog a)) as (L1 & L2 & L3 & L4 & L5).
    destruct (times is_accept (login web (requests a) (dialog a))) eqn:A.
    + rewrite settle_plain by assumption.
      cbn [log requests result globals record].
      rewrite R, !times_app, Q, L3.
      repeat split; auto.
      * apply Forall_app. split; [exact F|].
        apply Forall_forall. intros x Hx url l p ->.
        destruct (L4 _ _ _ Hx) as (-> & -> & ? & ? & ->).
        repeat split; auto. exists (dialog a). auto.
      * lia.
    + assert (K : exists uid t base wsurl,
                In (LoginSuccessful uid t base wsurl) (login web (requests a) (dialog a))).
      { clear -L3. unfold times in L3.
        induction (login web (requests a) (dialog a)) as [|x l IH]; [discriminate|].
        destruct x; cbn in L3;
          try (destruct (IH L3) as (u & t & b' & w & H); exists u, t, b', w; now right).
        eexists _, _, _, _. left. reflexivity. }
      destruct K as (uid & t & base & wsurl & K).
      destruct (L5 _ _ _ _ K) as (E & -> & ->). rewrite E in *.
      cbn [settle record log requests result globals dialog].
      repeat split.
      * rewrite times_app, Q. unfold times. cbn. lia.
      * apply Forall_app. split; [exact F|].
        apply Forall_forall. intros x Hx url l p ->.
        destruct (L4 _ _ _ Hx) as (-> & -> & ? & ? & ->).
        repeat split; auto. exists (dialog a). auto.
      * eexists {| current_user_id := uid; jwt_token := t;
                   SERVER_HOST_URL := get_base_url (dialog a);
                   WEBSOCKET_URL_FOR_GAME := get_websocket_url (dialog a) |},
                (log a ++ [Post _ _ _]).
        cbn. rewrite <- app_assoc. cbn. repeat split; auto.
        rewrite times_app, S. reflexivity.
  - (* register *)
    destruct (register_shape web (requests a) (dialog a)) as (L1 & L2 & L3 & L4 & L5).
    rewrite settle_plain by assumption. cbn [log requests result globals record].
    rewrite R, !times_app, Q, L4.
    repeat split; auto.
    + apply Forall_app. split; [exact F|].
      apply Forall_forall. intros x Hx url l p ->.
      destruct (L5 _ _ _ Hx) as (-> & -> & ? & ? & ->).
      repeat split; auto. exists (dialog a). auto.
    + lia.
Qed.

Lemma exec_consistent web inputs : consistent (exec_ web inputs).
Proof.
  unfold exec_.
  assert (G : forall a, consistent a ->
                consistent (fold_left (fun a i => handle web i a) inputs a)).
  { induction inputs as [|i inputs IH]; intros a H; [exact H|].
    cbn. apply IH. now apply handle_consistent. }
  apply G. repeat split; auto.
Qed.



(** X15. The program never reaches the launch error: when the dialog is
    accepted the globals are set. The game then starts as the user, with
    the token and the socket URL, of the one successful login of the
    session, which is the last thing the dialog did; when the dialog is
    closed instead, the program quits. *)
Theorem game_starts_from_login web inputs :
  main web inputs <> LaunchError /\
  (forall w token wsurl,
     main web inputs = Game w token wsurl ->
     exists uid base before,
       w = init_window uid /\
       log (exec_ web inputs) = before ++ [LoginSuccessful uid token base wsurl; Accept] /\
       times is_success before = 0%nat) /\
  (main web inputs = Exited ->
   times is_success (log (exec_ web inputs)) = 0%nat).
Proof.
  unfold main. destruct (exec_consistent web inputs) as (_ & _ & C).
  destruct (result (exec_ web inputs)) as [[]|].
  - destruct C as (g & before & -> & L & S).
    split; [discriminate|]. split; [|discriminate].
    intros w token wsurl [= <- <- <-].
    exists (current_user_id g), (SERVER_HOST_URL g), before. auto.
  - destruct C as (G & S). split; [discriminate|]. split; [discriminate|auto].
  - split; [discriminate|]. split; discriminate.
Qed.

Lemma game_starts_from_login_witness :
  main open_door sign_in
  = Game (init_window 7) "t0k3n" "ws://127.0.0.1:3000/api/ws" /\
  main open_door sign_in <> LaunchError.
Proof.
  split; [reflexivity|].
  exact (proj1 (game_starts_from_login open_door sign_in)).
Defined.

End AuthFacts.
